(** * TVirtualMutex.h: the abstract mutex, its scoped guards and helper macros

    A shallow embedding of [core/base/inc/TVirtualMutex.h].  The header
    declares an abstract class ([TVirtualMutex], every operation pure
    virtual), two concrete RAII classes ([TLockGuard], [ROOT::TLockSuspend])
    and a family of macros.  The guards and macros are embedded as monadic
    programs over a state that carries

    - the shared memory the backend acts on,
    - a log of the calls the guards and macros dispatch, and
    - the guard object itself (its private fields), so that the value of a
      field at the moment an exception leaves a method is part of the model.

    The backend is a type class: every theorem about a guard holds for any
    implementation of the interface. *)

From Stdlib Require Import ZArith Lia.
From stdpp Require Import base tactics option list numbers.

Set Default Proof Using "Type".

(** ** Values *)

(** [Int_t] is ROOT's 32-bit signed integer; the header only moves such
    values around and writes the literal [0]. *)
Abbreviation Int_t := Z (only parsing).

(** Addresses of mutex objects.  A [TVirtualMutex *] is [None] when null. *)
Abbreviation loc := nat (only parsing).
Abbreviation ptr := (option loc) (only parsing).

(** A [std::unique_ptr<TVirtualMutex::State>]: empty, or owning a snapshot. *)
Abbreviation unique_ptr St := (option St) (only parsing).

(** C++ exceptions are opaque to the header: a tag is enough. *)
Definition exception := nat.

(** Ways in which a computation ends without handing control back. *)
Inductive halt : Set :=
| Terminate   (* std::terminate: an exception left a noexcept function *)
| Undefined   (* undefined behaviour: a bad pointer, a misused lock *)
| Blocked.    (* the call waits for a lock and cannot return here *)

(** ** Outcomes and the program monad *)

Inductive outcome (A Σ : Type) : Type :=
| Return (a : A) (σ : Σ)
| Throw (e : exception) (σ : Σ)
| Halt (h : halt) (σ : Σ).
Arguments Return {A Σ} a σ.
Arguments Throw {A Σ} e σ.
Arguments Halt {A Σ} h σ.

Definition M (Σ A : Type) : Type := Σ → outcome A Σ.

Definition ret {Σ A} (a : A) : M Σ A := λ σ, Return a σ.

Definition bind {Σ A B} (c : M Σ A) (k : A → M Σ B) : M Σ B :=
  λ σ, match c σ with
       | Return a σ' => k a σ'
       | Throw e σ' => Throw e σ'
       | Halt h σ' => Halt h σ'
       end.

Declare Scope prog_scope.
Delimit Scope prog_scope with prog.
Notation "'let!' x := c 'in' k" := (bind c (λ x, k))
  (at level 10, x name, c at level 100, k at level 200,
   format "'[v' 'let!'  x  :=  c  'in' '/' k ']'") : prog_scope.
Notation "c ;;; k" := (bind c (λ _, k))
  (at level 100, k at level 200, right associativity) : prog_scope.
Bind Scope prog_scope with M.

(** The state an outcome ends in. *)
Definition final {A Σ} (r : outcome A Σ) : Σ :=
  match r with Return _ σ | Throw _ σ | Halt _ σ => σ end.

(** Control comes back to the caller: by a return or by an exception. *)
Definition exits {A Σ} (r : outcome A Σ) : Prop :=
  match r with Halt _ _ => False | _ => True end.

(** Change the state an outcome carries. *)
Definition restate {A Σ Σ'} (f : Σ → Σ') (r : outcome A Σ) : outcome A Σ' :=
  match r with
  | Return a σ => Return a (f σ)
  | Throw e σ => Throw e (f σ)
  | Halt h σ => Halt h (f σ)
  end.

(** A function that is [noexcept], as destructors are unless declared
    otherwise: an exception that tries to leave it ends the program. *)
Definition noexcept {Σ A} (c : M Σ A) : M Σ A :=
  λ σ, match c σ with
       | Throw _ σ' => Halt Terminate σ'
       | r => r
       end.

(** ** Shared memory *)

(** The lvalues of type [TVirtualMutex *] that client code hands to the
    macros (globals such as [gROOTMutex]) are cells of the shared memory,
    next to the backend's own objects. *)
Definition var := nat.

Record memory (W : Type) : Type := Memory {
  cells : var → option loc;
  objects : W
}.
Arguments Memory {W} cells objects.
Arguments cells {W} m x.
Arguments objects {W} m.

Definition load {W} (x : var) (μ : memory W) : option loc := cells μ x.

Definition store {W} (x : var) (p : option loc) (μ : memory W) : memory W :=
  {| cells := λ y, if decide (y = x) then p else cells μ y;
     objects := objects μ |}.

(** ** class TVirtualMutex *)

(** The abstract interface.  A virtual call may wait, and while it does
    other threads run and may write any shared variable: a call is a
    transformer of the whole shared memory, not only of the object it is
    made on.  [Lock], [TryLock], [UnLock] and [CleanUp] return a status,
    [Factory] a pointer to a new mutex, [Reset] a snapshot that [Restore]
    consumes. *)
Class TVirtualMutex (W St : Type) : Type := {
  Lock    : loc → memory W → outcome Int_t (memory W);
  TryLock : loc → memory W → outcome Int_t (memory W);
  UnLock  : loc → memory W → outcome Int_t (memory W);
  CleanUp : loc → memory W → outcome Int_t (memory W);
  Factory : loc → bool → memory W → outcome (option loc) (memory W);
  Reset   : loc → memory W → outcome (unique_ptr St) (memory W);
  Restore : loc → unique_ptr St → memory W → outcome unit (memory W)
}.

(** [Int_t Acquire() { return Lock(); }] and
    [Int_t Release() { return UnLock(); }]. *)
Definition Acquire `{TVirtualMutex W St} (m : loc) : memory W → outcome Int_t (memory W) :=
  Lock m.
Definition Release `{TVirtualMutex W St} (m : loc) : memory W → outcome Int_t (memory W) :=
  UnLock m.

(** ** The call log *)

Inductive method (St : Type) : Type :=
| MLock | MTryLock | MUnLock | MCleanUp
| MFactory (recursive : bool)
| MReset
| MRestore (state : unique_ptr St).
Arguments MLock {St}.
Arguments MTryLock {St}.
Arguments MUnLock {St}.
Arguments MCleanUp {St}.
Arguments MFactory {St} recursive.
Arguments MReset {St}.
Arguments MRestore {St} state.

(** Operations of the read/write lock the [R__RWLOCK_*] macros act on. *)
Inductive rwmethod : Set := MReadLock | MReadUnLock | MWriteLock | MWriteUnLock.

(** One entry per call dispatched by the code of this header. *)
Inductive call (St : Type) : Type :=
| on_mutex (target : loc) (m : method St)
| on_rwlock (target : loc) (m : rwmethod).
Arguments on_mutex {St} target m.
Arguments on_rwlock {St} target m.

Record traced (W St : Type) : Type := Traced {
  mem : memory W;
  calls : list (call St)
}.
Arguments Traced {W St} mem calls.
Arguments mem {W St} t.
Arguments calls {W St} t.

(** Dispatch a call: log it, then let the callee act on the memory. *)
Definition dispatch {W St A} (c : call St)
    (f : memory W → outcome A (memory W)) : M (traced W St) A :=
  λ s, restate (λ μ, Traced μ (calls s ++ [c])) (f (mem s)).

(** A method body runs with its object: [this] holds the private fields. *)
Record frame (G Σ : Type) : Type := Frame { this : G; env : Σ }.
Arguments Frame {G Σ} this env.
Arguments this {G Σ} f.
Arguments env {G Σ} f.

Definition get_this {G Σ} : M (frame G Σ) G := λ f, Return (this f) f.
Definition set_this {G Σ} (g : G) : M (frame G Σ) unit :=
  λ f, Return tt (Frame g (env f)).
Definition in_env {G Σ A} (c : M Σ A) : M (frame G Σ) A :=
  λ f, restate (Frame (this f)) (c (env f)).

Section calls.
Context {W St : Type} {B : TVirtualMutex W St}.

Definition call_Lock (m : loc) : M (traced W St) Int_t :=
  dispatch (on_mutex m MLock) (Lock m).
Definition call_UnLock (m : loc) : M (traced W St) Int_t :=
  dispatch (on_mutex m MUnLock) (UnLock m).
Definition call_Factory (m : loc) (recursive : bool) : M (traced W St) (option loc) :=
  dispatch (on_mutex m (MFactory recursive)) (Factory m recursive).
Definition call_Reset (m : loc) : M (traced W St) (unique_ptr St) :=
  dispatch (on_mutex m MReset) (Reset m).
Definition call_Restore (m : loc) (state : unique_ptr St) : M (traced W St) unit :=
  dispatch (on_mutex m (MRestore state)) (Restore m state).
End calls.

(** ** class TLockGuard *)

Module TLockGuard.
(** [TVirtualMutex *fMutex;] *)
Record t : Set := Build { fMutex : option loc }.

Section methods.
Context {W St : Type} {B : TVirtualMutex W St}.
Local Open Scope prog_scope.

(** [TLockGuard(TVirtualMutex *mutex) : fMutex(mutex)
      { if (fMutex) fMutex->Lock(); }]
    The status [Lock] returns is dropped.  When [Lock] throws, so does
    the constructor, and no object comes to exist. *)
Definition ctor (mutex : option loc) : M (traced W St) t :=
  let this := {| fMutex := mutex |} in
  match fMutex this with
  | Some m => call_Lock m ;;; ret this
  | None => ret this
  end.

(** [Int_t UnLock() {
       if (!fMutex) return 0;
       auto tmp = fMutex;
       fMutex = 0;
       return tmp->UnLock(); }] *)
Definition UnLock : M (frame t (traced W St)) Int_t :=
  let! g := get_this in
  match fMutex g with
  | None => ret 0%Z
  | Some tmp =>
      set_this {| fMutex := None |} ;;;
      in_env (call_UnLock tmp)
  end.

(** [~TLockGuard() { if (fMutex) fMutex->UnLock(); }] *)
Definition dtor : M (frame t (traced W St)) unit :=
  noexcept
    (let! g := get_this in
     match fMutex g with
     | Some m => in_env (call_UnLock m) ;;; ret tt
     | None => ret tt
     end).
End methods.
End TLockGuard.

(** ** class ROOT::TLockSuspend *)

Module TLockSuspend.
(** [TVirtualMutex *const fMutex;
     std::unique_ptr<TVirtualMutex::State> fState;] *)
Record t (St : Type) : Type := Build { fMutex : option loc; fState : option St }.
Arguments Build {St} fMutex fState.
Arguments fMutex {St} t.
Arguments fState {St} t.

Section methods.
Context {W St : Type} {B : TVirtualMutex W St}.
Local Open Scope prog_scope.

(** [TLockSuspend(TVirtualMutex *mutex) : fMutex(mutex)
      { if (fMutex) fState = mutex->Reset(); }]
    [fState] is default-initialised, hence empty until assigned. *)
Definition ctor (mutex : option loc) : M (traced W St) (t St) :=
  let this := {| fMutex := mutex; fState := None |} in
  match fMutex this, mutex with
  | Some _, Some m =>
      let! state := call_Reset m in
      ret {| fMutex := fMutex this; fState := state |}
  | _, _ => ret this
  end.

(** [~TLockSuspend() { if (fMutex) fMutex->Restore(std::move(fState)); }]
    [Restore] receives the snapshot by rvalue reference; the object is
    gone when the destructor ends, so what is left in [fState] is not
    observable. *)
Definition dtor : M (frame (t St) (traced W St)) unit :=
  noexcept
    (let! g := get_this in
     match fMutex g with
     | Some m => in_env (call_Restore m (fState g))
     | None => ret tt
     end).
End methods.
End TLockSuspend.

(** ** Scopes *)

(** [{ G guard(...); body }]: the constructor runs, then the body, then
    the destructor, whether the body returns or throws.  A constructor
    that throws leaves no object to destroy.  An exception out of the
    destructor ends the program. *)
Definition leave {G Σ A} (dtor : M (frame G Σ) unit)
    (r : outcome A (frame G Σ)) : outcome A Σ :=
  match r with
  | Return a f =>
      match dtor f with
      | Return _ f' => Return a (env f')
      | Throw _ f' => Halt Terminate (env f')
      | Halt h f' => Halt h (env f')
      end
  | Throw e f =>
      match dtor f with
      | Return _ f' => Throw e (env f')
      | Throw _ f' => Halt Terminate (env f')
      | Halt h f' => Halt h (env f')
      end
  | Halt h f => Halt h (env f)
  end.

Definition scope {G Σ A} (ctor : M Σ G) (dtor : M (frame G Σ) unit)
    (body : M (frame G Σ) A) : M Σ A :=
  λ σ, match ctor σ with
       | Return g σ1 => leave dtor (body (Frame g σ1))
       | Throw e σ1 => Throw e σ1
       | Halt h σ1 => Halt h σ1
       end.

(** Code of the protected section that does not name the guard.  It may
    do anything to the shared memory (lock and unlock mutexes, throw, never
    come back), but the guard's fields are private: it cannot touch them,
    and what it calls is not a call of the guard. *)
Definition code (W : Type) : Type := memory W → outcome unit (memory W).

Definition run_code {W St G} (c : code W) : M (frame G (traced W St)) unit :=
  in_env (λ s, restate (λ μ, Traced μ (calls s)) (c (mem s))).

(** A statement in the scope of a [TLockGuard]: the explicit
    [guard.UnLock()] (its status dropped), or other code. *)
Inductive stmt (W : Type) : Type :=
| guard_UnLock
| other (c : code W).
Arguments guard_UnLock {W}.
Arguments other {W} c.

Section bodies.
Context {W St : Type} {B : TVirtualMutex W St}.
Local Open Scope prog_scope.

Definition exec (i : stmt W) : M (frame TLockGuard.t (traced W St)) unit :=
  match i with
  | guard_UnLock => TLockGuard.UnLock ;;; ret tt
  | other c => run_code c
  end.

Fixpoint run (body : list (stmt W)) : M (frame TLockGuard.t (traced W St)) unit :=
  match body with
  | [] => ret tt
  | i :: body' => exec i ;;; run body'
  end.

(** [{ TLockGuard guard(mutex); body }] *)
Definition lock_scope (mutex : option loc) (body : list (stmt W)) : M (traced W St) unit :=
  scope (TLockGuard.ctor mutex) TLockGuard.dtor (run body).

(** [{ TLockSuspend guard(mutex); body }] *)
Definition suspend_scope (mutex : option loc) (body : code W) : M (traced W St) unit :=
  scope (TLockSuspend.ctor mutex) TLockSuspend.dtor (run_code body).
End bodies.

(** Where a statement leaves a guard: it still holds its mutex and has
    called nothing, or it has let go with one [UnLock]. *)
Definition guard_after {W St} (g : TLockGuard.t) (before : list (call St))
    (f : frame TLockGuard.t (traced W St)) : Prop :=
  match TLockGuard.fMutex g with
  | Some m =>
      (this f = g ∧ calls (env f) = before) ∨
      (this f = TLockGuard.Build None ∧ calls (env f) = before ++ [on_mutex m MUnLock])
  | None => this f = g ∧ calls (env f) = before
  end.

(** ** The macros *)

(** The two preprocessor switches the header tests. *)
Record build : Set := Build_config {
  thread_support : bool;   (* defined (_REENTRANT) || defined (WIN32) *)
  R__USE_IMT : bool        (* #ifdef R__USE_IMT *)
}.

(** Reading and assigning an lvalue of type [TVirtualMutex *]. *)
Definition read {W St} (x : var) : M (traced W St) (option loc) :=
  λ s, Return (load x (mem s)) s.
Definition write {W St} (x : var) (p : option loc) : M (traced W St) unit :=
  λ s, Return tt (Traced (store x p (mem s)) (calls s)).

Section macros.
Context {W St : Type} {B : TVirtualMutex W St}.
Local Open Scope prog_scope.

(** [R__EXTERN TVirtualMutex *gGlobalMutex;], "set in TThread::Init":
    assigned once by the thread library before any of this code runs and
    a constant from then on. *)
Variable gGlobalMutex : option loc.

(** [ROOT::Internal::IsParTreeProcessingEnabled()] is declared elsewhere:
    a query of the runtime state. *)
Variable IsParTreeProcessingEnabled : memory W → bool.

(** The read/write lock of the [R__RWLOCK_*] macros is any object with
    these four members; what they return is dropped. *)
Variable ReadLock ReadUnLock WriteLock WriteUnLock : loc → code W.

Definition rw_member (m : rwmethod) : loc → code W :=
  match m with
  | MReadLock => ReadLock
  | MReadUnLock => ReadUnLock
  | MWriteLock => WriteLock
  | MWriteUnLock => WriteUnLock
  end.

Definition call_rw (m : rwmethod) (rwlock : loc) : M (traced W St) unit :=
  dispatch (on_rwlock rwlock m) (rw_member m rwlock).

(** [#define R__LOCKGUARD(mutex) TLockGuard _R__UNIQUE_(R__guard)(mutex)]
    with thread support, [(void)mutex; { }] without.  The guard, when one
    is declared, lives on in the enclosing scope. *)
Definition R__LOCKGUARD (cfg : build) (mutex : memory W → option loc)
    : M (traced W St) (option TLockGuard.t) :=
  if thread_support cfg then
    let! m := (λ s, Return (mutex (mem s)) s) in
    let! guard := TLockGuard.ctor m in
    ret (Some guard)
  else ret None.

(** [#define R__LOCKGUARD2(mutex)
       if (gGlobalMutex && !mutex) {
          gGlobalMutex->Lock();
          if (!mutex)
             mutex = gGlobalMutex->Factory(kTRUE);
          gGlobalMutex->UnLock();
       }
       R__LOCKGUARD(mutex)] *)
Definition R__LOCKGUARD2 (cfg : build) (mutex : var)
    : M (traced W St) (option TLockGuard.t) :=
  if thread_support cfg then
    match gGlobalMutex with
    | Some g =>
        let! m := read mutex in
        match m with
        | None =>
            call_Lock g ;;;
            (let! m' := read mutex in
             match m' with
             | None =>
                 let! fresh := call_Factory g true in
                 write mutex fresh
             | Some _ => ret tt
             end) ;;;
            call_UnLock g ;;;
            ret tt
        | Some _ => ret tt
        end
    | None => ret tt
    end ;;;
    R__LOCKGUARD cfg (load mutex)
  else ret None.

(** [#define R__LOCK_SUSPEND(mutex) TLockSuspend _R__UNIQUE_(R__guard)(mutex)],
    or [{ }]. *)
Definition R__LOCK_SUSPEND (cfg : build) (mutex : memory W → option loc)
    : M (traced W St) (option (TLockSuspend.t St)) :=
  if thread_support cfg then
    let! m := (λ s, Return (mutex (mem s)) s) in
    let! guard := TLockSuspend.ctor m in
    ret (Some guard)
  else ret None.

(** [if (cond()) stmt;] *)
Definition when_enabled (cond : memory W → bool) (stmt : M (traced W St) unit)
    : M (traced W St) unit :=
  λ s, if cond (mem s) then stmt s else Return tt s.

(** [#define R__RWLOCK_ACQUIRE_READ(rwlock)
       if (ROOT::Internal::IsParTreeProcessingEnabled()) rwlock.ReadLock();]
    with [R__USE_IMT], [{ }] without. *)
Definition R__RWLOCK_ACQUIRE_READ (cfg : build) (rwlock : loc) : M (traced W St) unit :=
  if R__USE_IMT cfg
  then when_enabled IsParTreeProcessingEnabled (call_rw MReadLock rwlock)
  else ret tt.

(** [... if (ROOT::Internal::IsParTreeProcessingEnabled()) rwlock.ReadUnLock();] *)
Definition R__RWLOCK_RELEASE_READ (cfg : build) (rwlock : loc) : M (traced W St) unit :=
  if R__USE_IMT cfg
  then when_enabled IsParTreeProcessingEnabled (call_rw MReadUnLock rwlock)
  else ret tt.

(** [... if (ROOT::Internal::IsParTreeProcessingEnabled()) rwlock.WriteLock();] *)
Definition R__RWLOCK_ACQUIRE_WRITE (cfg : build) (rwlock : loc) : M (traced W St) unit :=
  if R__USE_IMT cfg
  then when_enabled IsParTreeProcessingEnabled (call_rw MWriteLock rwlock)
  else ret tt.

(** [... if (ROOT::Internal::IsParTreeProcessingEnabled()) rwlock.WriteUnLock();] *)
Definition R__RWLOCK_RELEASE_WRITE (cfg : build) (rwlock : loc) : M (traced W St) unit :=
  if R__USE_IMT cfg
  then when_enabled IsParTreeProcessingEnabled (call_rw MWriteUnLock rwlock)
  else ret tt.

(** The macro that goes with each member. *)
Definition rwlock_macro (m : rwmethod) : build → loc → M (traced W St) unit :=
  match m with
  | MReadLock => R__RWLOCK_ACQUIRE_READ
  | MReadUnLock => R__RWLOCK_RELEASE_READ
  | MWriteLock => R__RWLOCK_ACQUIRE_WRITE
  | MWriteUnLock => R__RWLOCK_RELEASE_WRITE
  end.
End macros.

(** ** A recursive mutex

    The header has no implementation of [TVirtualMutex]: the thread
    library provides it.  The backend below is the lock the specification
    describes, as one thread sees it; it serves to state what "held" and
    "hold depth" mean and to run the guards on. *)

Module RecursiveMutex.

Definition tid := nat.

(** Modelled from the spec: the hold state of a lock (the implementations
    of [TVirtualMutex] are missing).  A lock is unheld, or held by one
    thread at a depth of at least one: [Held t n] is depth [S n]. *)
Inductive hold : Set :=
| Free
| Held (owner : tid) (more : nat).

(** Modelled from the spec: the hold depth, "the count of unmatched lock()
    calls currently outstanding for a Lock (0 = unheld)". *)
Definition depth (h : hold) : nat :=
  match h with Free => 0 | Held _ n => S n end.

(** The depth at which thread [t] holds the lock. *)
Definition depth_of (t : tid) (h : hold) : nat :=
  match h with
  | Free => 0
  | Held o n => if decide (o = t) then S n else 0
  end.

(** Modelled from the spec: a lock object.  [recursive] is the argument
    its [Factory] was given; the spec gives [lock()] recursive acquisition
    whatever the flag, so it is recorded only. *)
Record mutex : Set := Mutex { recursive : bool; state : hold }.

(** Modelled from the spec: the Hold-State Snapshot, a capture of the
    depth at the moment of a full release. *)
Record snapshot : Set := Snapshot { saved : nat }.

Abbreviation heap := (list mutex) (only parsing).

(** What a call does to the hold state: it completes with a result, has
    to wait for another thread, or is a misuse the spec leaves undefined. *)
Inductive step (A : Type) : Type :=
| Done (a : A) (h : hold)
| Wait
| Misuse.
Arguments Done {A} a h.
Arguments Wait {A}.
Arguments Misuse {A}.

(** Modelled from the spec: the status codes; the spec says only "a status
    code" and "success/failure". *)
Definition kSuccess : Z := 0.
Definition kBusy : Z := 1.

(** Modelled from the spec: [lock()] "blocks the calling thread until
    exclusive ownership is acquired; supports recursive acquisition by the
    same thread (hold depth increments); returns a status code". *)
Definition lock (t : tid) (h : hold) : step Z :=
  match h with
  | Free => Done kSuccess (Held t 0)
  | Held o n => if decide (o = t) then Done kSuccess (Held t (S n)) else Wait
  end.

(** Modelled from the spec: [try_lock()] "attempts acquisition without
    blocking; returns success/failure instead of blocking". *)
Definition try_lock (t : tid) (h : hold) : step Z :=
  match h with
  | Free => Done kSuccess (Held t 0)
  | Held o n => if decide (o = t) then Done kSuccess (Held t (S n)) else Done kBusy h
  end.

(** Modelled from the spec: [unlock()] "releases one level of hold;
    decrements recursive depth; must only be called by the thread/context
    that holds the lock, once per matching lock()". *)
Definition unlock (t : tid) (h : hold) : step Z :=
  match h with
  | Free => Misuse
  | Held o n =>
      if decide (o = t)
      then Done kSuccess (match n with O => Free | S k => Held t k end)
      else Misuse
  end.

(** Modelled from the spec: [cleanup()], "backend-defined forced
    release/reset ... idempotent from the caller's perspective". *)
Definition cleanup (t : tid) (h : hold) : step Z := Done kSuccess Free.

(** Modelled from the spec: [reset()] "fully releases the lock regardless
    of current recursive hold depth, and returns a Hold-State Snapshot
    capturing that depth ... if the lock is unheld, the returned snapshot
    represents unheld".  A thread releases what it holds: a lock held by
    another thread is unheld for the caller. *)
Definition reset (t : tid) (h : hold) : step (option snapshot) :=
  Done (Some (Snapshot (depth_of t h)))
       (match h with
        | Free => Free
        | Held o n => if decide (o = t) then Free else h
        end).

(** Modelled from the spec: [restore(snapshot)] "reacquires the lock to
    the exact depth/state the snapshot represents"; like [lock()], it
    waits while another thread holds the lock.  An empty snapshot pointer
    is a misuse. *)
Definition restore (t : tid) (s : option snapshot) (h : hold) : step unit :=
  match s with
  | None => Misuse
  | Some (Snapshot O) =>
      Done tt (match h with
               | Free => Free
               | Held o n => if decide (o = t) then Free else h
               end)
  | Some (Snapshot (S n)) =>
      match h with
      | Free => Done tt (Held t n)
      | Held o _ => if decide (o = t) then Done tt (Held t n) else Wait
      end
  end.

(** A member call on the object at [m]: a pointer to no object is
    undefined behaviour. *)
Definition member {A} (f : hold → step A) (m : loc) (μ : memory heap)
    : outcome A (memory heap) :=
  match objects μ !! m with
  | None => Halt Undefined μ
  | Some o =>
      match f (state o) with
      | Done a h => Return a (Memory (cells μ) (<[m := Mutex (recursive o) h]> (objects μ)))
      | Wait => Halt Blocked μ
      | Misuse => Halt Undefined μ
      end
  end.

(** Modelled from the spec: [factory(recursive)] "constructs a new Lock
    instance of the same backend kind": a new, unheld object. *)
Definition factory (m : loc) (recursive : bool) (μ : memory heap)
    : outcome (option loc) (memory heap) :=
  match objects μ !! m with
  | None => Halt Undefined μ
  | Some _ =>
      Return (Some (length (objects μ)))
             (Memory (cells μ) (objects μ ++ [Mutex recursive Free]))
  end.

(** The interface, as thread [self] calls it. *)
Definition backend (self : tid) : TVirtualMutex heap snapshot := {|
  Lock := member (lock self);
  TryLock := member (try_lock self);
  UnLock := member (unlock self);
  CleanUp := member (cleanup self);
  Factory := factory;
  Reset := member (reset self);
  Restore m s := member (restore self s) m
|}.

(** The hold state of the mutex at [m]; a bad pointer reads as unheld. *)
Definition hold_at (m : loc) (μ : memory heap) : hold :=
  match objects μ !! m with Some o => state o | None => Free end.

(** A sequence of [Lock()] and [UnLock()] calls. *)
Inductive op : Set := L | U.

#[global] Instance op_eq_dec : EqDecision op.
Proof. solve_decision. Defined.

Fixpoint perform (t : tid) (m : loc) (ops : list op) : M (memory heap) unit :=
  match ops with
  | [] => ret tt
  | L :: ops' => bind (Lock (TVirtualMutex := backend t) m) (λ _, perform t m ops')
  | U :: ops' => bind (UnLock (TVirtualMutex := backend t) m) (λ _, perform t m ops')
  end.

Definition count (o : op) (ops : list op) : nat :=
  length (filter (λ x, x = o) ops).

(** "UnLock() never exceeding prior Lock() calls": in every prefix. *)
Definition balanced (ops : list op) : Prop :=
  ∀ n, (count U (take n ops) ≤ count L (take n ops)).

End RecursiveMutex.

(** ** What a backend owes its callers *)

(** Modelled from the spec: the contract of [lock()], [unlock()],
    [reset()] and [restore()] (their implementations are missing), for the
    calls that return.  [held m μ] is the depth at which the calling thread
    holds the lock at [m]; [captured x] is the depth a snapshot stands for. *)
Class Reentrant {W St : Type} (B : TVirtualMutex W St) : Type := {
  held : loc → memory W → nat;
  captured : St → nat;
  Lock_held m μ rc μ' :
    Lock m μ = Return rc μ' → held m μ' = S (held m μ);
  UnLock_held m μ rc μ' :
    UnLock m μ = Return rc μ' → held m μ = S (held m μ');
  Reset_held m μ st μ' :
    Reset m μ = Return st μ' →
    held m μ' = 0 ∧ ∃ x, st = Some x ∧ captured x = held m μ;
  Restore_held m x μ μ' :
    Restore m (Some x) μ = Return tt μ' → held m μ' = captured x
}.

(** ** Test doubles *)

Module Stub.
(** A backend that does nothing but answer as scripted: the status its
    [Lock] reports, what its [UnLock] does (a status, or an exception),
    what other threads did to the memory while [Lock] waited, and the
    pointer its [Factory] hands out. *)
Record script : Type := Script {
  lock_status : Z;
  unlock_result : Z + exception;
  meanwhile : memory unit → memory unit;
  product : option loc
}.

Definition backend (b : script) : TVirtualMutex unit unit := {|
  Lock _ μ := Return (lock_status b) (meanwhile b μ);
  TryLock _ μ := Return (lock_status b) μ;
  UnLock _ μ := match unlock_result b with
                | inl rc => Return rc μ
                | inr e => Throw e μ
                end;
  CleanUp _ μ := Return 0%Z μ;
  Factory _ _ μ := Return (product b) μ;
  Reset _ μ := Return (Some tt) μ;
  Restore _ _ μ := Return tt μ
|}.

(** Every call returns [rc] and changes nothing. *)
Definition reporting (rc : Z) : script :=
  Script rc (inl rc) (λ μ, μ) None.

(** [UnLock] throws [e]. *)
Definition throwing (e : exception) : script :=
  Script 0%Z (inr e) (λ μ, μ) None.

(** While [Lock] waits, another thread assigns [p] to the variable [x]. *)
Definition racing (x : var) (p : option loc) : script :=
  Script 0%Z (inl 0%Z) (store x p) (Some 7).

Definition empty : traced unit unit := Traced (Memory (λ _, None) tt) [].
End Stub.

(** ** The macros gated on a runtime flag, and nested scopes *)

Section imt_macros.
Context {W St : Type} {B : TVirtualMutex W St}.
Local Open Scope prog_scope.

Variable gGlobalMutex : option loc.

(** [ROOT::Internal::IsParBranchProcessingEnabled()] is declared elsewhere:
    a query of the runtime state. *)
Variable IsParBranchProcessingEnabled : memory W → bool.

(** [#define R__LOCKGUARD_IMT(mutex)
       if (ROOT::Internal::IsParBranchProcessingEnabled()) R__LOCKGUARD(mutex)]
    with [R__USE_IMT], [{ }] without.  With thread support the expansion
    is [if (...) TLockGuard R__guardN(mutex);]: the declaration is the
    substatement of the [if], which is a block scope of its own, so the
    guard is destroyed where the [if] ends.  Without thread support it is
    [if (...) (void)mutex; { }]. *)
Definition R__LOCKGUARD_IMT (cfg : build) (mutex : memory W → option loc)
    : M (traced W St) unit :=
  if R__USE_IMT cfg then
    if thread_support cfg then
      λ s, if IsParBranchProcessingEnabled (mem s)
           then scope (TLockGuard.ctor (mutex (mem s))) TLockGuard.dtor (ret tt) s
           else Return tt s
    else ret tt
  else ret tt.

(** [#define R__LOCKGUARD_IMT2(mutex)
       if (ROOT::Internal::IsParBranchProcessingEnabled()) R__LOCKGUARD2(mutex)]
    with [R__USE_IMT], [{ }] without.  With thread support the expansion is
    [if (...) if (gGlobalMutex && !mutex) { ... } TLockGuard R__guardN(mutex);]:
    the outer [if] governs the inner [if] statement only, and the guard is
    declared after it, in the enclosing scope.  Without thread support it
    is [if (...) (void)mutex; { }]. *)
Definition R__LOCKGUARD_IMT2 (cfg : build) (mutex : var)
    : M (traced W St) (option TLockGuard.t) :=
  if R__USE_IMT cfg then
    if thread_support cfg then
      (λ s, if IsParBranchProcessingEnabled (mem s)
            then match gGlobalMutex with
                 | Some g =>
                     let! m := read mutex in
                     match m with
                     | None =>
                         call_Lock g ;;;
                         (let! m' := read mutex in
                          match m' with
                          | None =>
                              let! fresh := call_Factory g true in
                              write mutex fresh
                          | Some _ => ret tt
                          end) ;;;
                         call_UnLock g ;;;
                         ret tt
                     | Some _ => ret tt
                     end
                 | None => ret tt
                 end s
            else Return tt s) ;;;
      R__LOCKGUARD cfg (load mutex)
    else ret None
  else ret None.

(** [{ TLockGuard outer(m1); { TLockGuard inner(m2); body } }] *)
Definition nested_locks (m1 m2 : option loc) (body : list (stmt W))
    : M (traced W St) unit :=
  scope (TLockGuard.ctor m1) TLockGuard.dtor (in_env (lock_scope m2 body)).

(** [{ TLockGuard guard(m1); { TLockSuspend suspend(m2); body } }] *)
Definition lock_then_suspend (m1 m2 : option loc) (body : code W)
    : M (traced W St) unit :=
  scope (TLockGuard.ctor m1) TLockGuard.dtor (in_env (suspend_scope m2 body)).
End imt_macros.

(** A statement that leaves the depth at which the caller holds [m] as
    it found it, however it ends: [guard.UnLock()] is not judged here, other
    code must keep the depth. *)
Definition keeps_depth {W St} {B : TVirtualMutex W St} {R : Reentrant B}
    (m : loc) (i : stmt W) : Prop :=
  match i with
  | guard_UnLock => True
  | other c => ∀ μ, held m (final (c μ)) = held m μ
  end.

(** What a statement of a scope on [m], entered at depth [d], leaves: the
    guard still holds [m], one level above [d], or it has let go and the
    depth is [d] again. *)
Definition guard_depth {W St} {B : TVirtualMutex W St} {R : Reentrant B}
    (m : loc) (d : nat) (f : frame TLockGuard.t (traced W St)) : Prop :=
  match TLockGuard.fMutex (this f) with
  | Some m' => m' = m ∧ held m (mem (env f)) = S d
  | None => held m (mem (env f)) = d
  end.

Module Faulty.
(** Test doubles: backends that report by exception.  [factory_throws e]
    has a [Factory] that throws [e], as a [new] out of memory does;
    [acquire_throws e] has a [Lock] and a [Reset] that throw [e].  Their
    other calls return 0 and change nothing. *)
Definition factory_throws (e : exception) : TVirtualMutex unit unit := {|
  Lock _ μ := Return 0%Z μ;
  TryLock _ μ := Return 0%Z μ;
  UnLock _ μ := Return 0%Z μ;
  CleanUp _ μ := Return 0%Z μ;
  Factory _ _ μ := Throw e μ;
  Reset _ μ := Return (Some tt) μ;
  Restore _ _ μ := Return tt μ
|}.

Definition acquire_throws (e : exception) : TVirtualMutex unit unit := {|
  Lock _ μ := Throw e μ;
  TryLock _ μ := Return 0%Z μ;
  UnLock _ μ := Return 0%Z μ;
  CleanUp _ μ := Return 0%Z μ;
  Factory _ _ μ := Return None μ;
  Reset _ μ := Throw e μ;
  Restore _ _ μ := Return tt μ
|}.
End Faulty.

Module Sample.
(** Two unheld recursive mutexes, at addresses 0 and 1. *)
Definition two_mutexes : traced (list RecursiveMutex.mutex) RecursiveMutex.snapshot :=
  Traced (Memory (λ _, None)
            [RecursiveMutex.Mutex true RecursiveMutex.Free;
             RecursiveMutex.Mutex true RecursiveMutex.Free]) [].

(** One unheld mutex at address 0, and the variable 5 pointing to it. *)
Definition mutex_set : traced (list RecursiveMutex.mutex) RecursiveMutex.snapshot :=
  Traced (store 5 (Some 0)
            (Memory (λ _, None) [RecursiveMutex.Mutex true RecursiveMutex.Free])) [].
End Sample.

(** ** Fixtures *)

Module Fixture.
Import RecursiveMutex.

(** One unheld recursive mutex at address 0, no pointer variable set. *)
Definition one_mutex : traced (list mutex) snapshot :=
  Traced (Memory (λ _, None) [Mutex true Free]) [].

(** The same mutex, held twice by thread 1. *)
Definition held_twice : traced (list mutex) snapshot :=
  Traced (Memory (λ _, None) [Mutex true (Held 1 1)]) [].

(** Client code that throws. *)
Definition fail {W} (e : exception) : code W := λ μ, Throw e μ.
End Fixture.

(** * Properties *)

Ltac prog :=
  unfold lock_scope, suspend_scope, scope, exec, run_code,
    TLockGuard.ctor, TLockGuard.UnLock, TLockGuard.dtor,
    TLockSuspend.ctor, TLockSuspend.dtor,
    call_Lock, call_UnLock, call_Factory, call_Reset, call_Restore,
    dispatch, noexcept, in_env, get_this, set_this, read, write, bind, ret in *;
  cbn [TLockGuard.fMutex TLockSuspend.fMutex TLockSuspend.fState
       this env mem calls restate final] in *.

Section TLockGuard_facts.
Context {W St : Type} {B : TVirtualMutex W St}.
Implicit Types (m : loc) (s : traced W St) (g : TLockGuard.t).

(** The constructor on a mutex: one [Lock], whose status is dropped. *)
Lemma ctor_held m s :
  TLockGuard.ctor (Some m) s =
    match Lock m (mem s) with
    | Return _ μ => Return (TLockGuard.Build (Some m)) (Traced μ (calls s ++ [on_mutex m MLock]))
    | Throw e μ => Throw e (Traced μ (calls s ++ [on_mutex m MLock]))
    | Halt h μ => Halt h (Traced μ (calls s ++ [on_mutex m MLock]))
    end.
Proof. prog. by destruct (Lock m (mem s)). Qed.

Lemma ctor_null s :
  TLockGuard.ctor None s = Return (TLockGuard.Build None) s.
Proof. done. Qed.

(** A guard that holds a mutex hands [UnLock] to it, the field already
    cleared in whatever state the call ends. *)
Lemma UnLock_held_eq m s :
  TLockGuard.UnLock (Frame (TLockGuard.Build (Some m)) s) =
    restate (Frame (TLockGuard.Build None)) (call_UnLock m s).
Proof. done. Qed.

Lemma UnLock_null s :
  TLockGuard.UnLock (Frame (TLockGuard.Build None) s) =
    Return 0%Z (Frame (TLockGuard.Build None) s).
Proof. done. Qed.

Lemma dtor_null s :
  TLockGuard.dtor (Frame (TLockGuard.Build None) s) =
    Return tt (Frame (TLockGuard.Build None) s).
Proof. done. Qed.

Lemma call_UnLock_calls m s :
  calls (final (call_UnLock m s)) = calls s ++ [on_mutex m MUnLock].
Proof. prog. by destruct (UnLock m (mem s)). Qed.

Lemma dtor_held_calls m s :
  calls (env (final (TLockGuard.dtor (Frame (TLockGuard.Build (Some m)) s)))) =
    calls s ++ [on_mutex m MUnLock].
Proof. prog. by destruct (UnLock m (mem s)). Qed.

Lemma dtor_this g s :
  this (final (TLockGuard.dtor (Frame g s))) = g.
Proof.
  destruct g as [[m|]]; [|done].
  prog. by destruct (UnLock m (mem s)).
Qed.

(** Other code leaves the guard and its log alone. *)
Lemma run_code_frame {G} (c : code W) (f : frame G (traced W St)) :
  this (final (run_code c f)) = this f ∧
  calls (env (final (run_code c f))) = calls (env f).
Proof. prog. by destruct (c (mem (env f))). Qed.

Lemma exec_guard_after (i : stmt W) g s :
  guard_after g (calls s) (final (exec i (Frame g s))).
Proof.
  destruct i as [|c].
  - destruct g as [[m|]]; [right|by split].
    prog. by destruct (UnLock m (mem s)).
  - destruct (run_code_frame c (Frame g s)) as [E1 E2].
    unfold exec, guard_after. rewrite E1, E2.
    destruct g as [[m|]]; [left|]; done.
Qed.

Lemma run_guard_after (body : list (stmt W)) g s :
  guard_after g (calls s) (final (run body (Frame g s))).
Proof.
  revert g s. induction body as [|i body IH]; intros g s.
  - destruct g as [[m|]]; [left|]; done.
  - pose proof (exec_guard_after i g s) as Hi.
    cbn [run]. unfold bind at 1.
    destruct (exec i (Frame g s)) as [[] [g1 s1]|e [g1 s1]|h [g1 s1]];
      cbn [final] in Hi |- *; [|done..].
    specialize (IH g1 s1).
    destruct g as [[m|]]; unfold guard_after in *; cbn in *.
    + destruct Hi as [[-> E]|[-> E]]; cbn in IH; rewrite E in IH; [done|].
      by right.
    + destruct Hi as [-> E]. cbn in IH. by rewrite E in IH.
Qed.

(** Leaving the scope runs the destructor on the frame the body ended in. *)
Lemma leave_exits {G Σ A} (dtor : M (frame G Σ) unit) (r : outcome A (frame G Σ)) :
  exits r → final (leave dtor r) = env (final (dtor (final r))).
Proof. destruct r; [| |done]; intros _; cbn; by destruct (dtor σ). Qed.

Lemma leave_halts {G Σ A} (dtor : M (frame G Σ) unit) (r : outcome A (frame G Σ)) :
  ¬ exits r → final (leave dtor r) = env (final r).
Proof. destruct r; cbn; tauto. Qed.

Lemma lock_scope_calls m (body : list (stmt W)) s g s1 :
  TLockGuard.ctor (Some m) s = Return g s1 →
  exits (run body (Frame g s1)) →
  calls (final (lock_scope (Some m) body s)) =
    calls s ++ [on_mutex m MLock; on_mutex m MUnLock].
Proof.
  intros Hc Hx. unfold lock_scope, scope. rewrite Hc.
  rewrite leave_exits by done.
  rewrite ctor_held in Hc.
  destruct (Lock m (mem s)) as [rc μ| |]; [|done..].
  injection Hc as <- <-.
  pose proof (run_guard_after body (TLockGuard.Build (Some m))
                (Traced μ (calls s ++ [on_mutex m MLock]))) as Hr.
  destruct (final (run body _)) as [g2 s2].
  unfold guard_after in Hr; cbn in Hr.
  destruct Hr as [[-> E]|[-> E]].
  - rewrite dtor_held_calls, E. by rewrite <- app_assoc.
  - rewrite dtor_null. cbn. rewrite E. by rewrite <- app_assoc.
Qed.
End TLockGuard_facts.

(** ** The recursive mutex keeps the contract *)

Section RecursiveMutex_facts.
Import RecursiveMutex.
Implicit Types (t : tid) (h : hold) (m : loc) (μ : memory heap).

(** A member call that returns has found its object and stepped its
    hold state; nothing else in the memory moves. *)
Lemma member_returns {A} (f : hold → step A) m μ a μ' :
  member f m μ = Return a μ' →
  ∃ o h, objects μ !! m = Some o ∧ f (state o) = Done a h ∧
         μ' = Memory (cells μ) (<[m := Mutex (recursive o) h]> (objects μ)).
Proof.
  unfold member. destruct (objects μ !! m) as [o|] eqn:Eo; [|done].
  destruct (f (state o)) as [a' h| |] eqn:Ef; [|done..].
  intros [= -> <-]. by exists o, h.
Qed.

Lemma hold_at_member {A} (f : hold → step A) m μ a μ' :
  member f m μ = Return a μ' →
  f (hold_at m μ) = Done a (hold_at m μ').
Proof.
  intros (o & h & Eo & Ef & ->)%member_returns.
  unfold hold_at; cbn [objects]. rewrite Eo, list_lookup_insert_eq; [done|].
  by eapply lookup_lt_Some.
Qed.

(** Calls on one mutex leave the others as they are. *)
Lemma hold_at_member_ne {A} (f : hold → step A) m m' μ a μ' :
  m ≠ m' → member f m μ = Return a μ' → hold_at m' μ' = hold_at m' μ.
Proof.
  intros Hne (o & h & Eo & Ef & ->)%member_returns.
  unfold hold_at; cbn [objects]. by rewrite list_lookup_insert_ne.
Qed.

Lemma lock_depth_of t h rc h' :
  lock t h = Done rc h' → depth_of t h' = S (depth_of t h).
Proof.
  destruct h as [|o n]; cbn.
  - intros [= _ <-]. cbn. by rewrite decide_True.
  - destruct (decide (o = t)) as [->|]; [|done].
    intros [= _ <-]. cbn. by rewrite decide_True.
Qed.

Lemma unlock_depth_of t h rc h' :
  unlock t h = Done rc h' → depth_of t h = S (depth_of t h').
Proof.
  destruct h as [|o n]; cbn; [done|].
  destruct (decide (o = t)) as [->|]; [|done].
  intros [= _ <-]. destruct n; cbn; [done|]. by rewrite decide_True.
Qed.

Lemma reset_depth_of t h st h' :
  reset t h = Done st h' →
  depth_of t h' = 0 ∧ st = Some (Snapshot (depth_of t h)).
Proof.
  unfold reset. intros [= <- <-]. split; [|done].
  destruct h as [|o n]; cbn; [done|].
  destruct (decide (o = t)) as [->|Hne]; cbn; [done|].
  by rewrite decide_False.
Qed.

Lemma restore_depth_of t x h h' :
  restore t (Some x) h = Done tt h' → depth_of t h' = saved x.
Proof.
  destruct x as [[|n]]; cbn.
  - intros [= <-]. destruct h as [|o k]; cbn; [done|].
    destruct (decide (o = t)) as [->|Hne]; cbn; [done|].
    by rewrite decide_False.
  - destruct h as [|o k]; cbn.
    + intros [= <-]. cbn. by rewrite decide_True.
    + destruct (decide (o = t)) as [->|]; [|done].
      intros [= <-]. cbn. by rewrite decide_True.
Qed.

#[global, refine] Instance recursive_mutex_reentrant (self : tid) :
  Reentrant (RecursiveMutex.backend self) := {|
  held m μ := depth_of self (hold_at m μ);
  captured := saved
|}.
Proof.
  - intros m μ rc μ' H%hold_at_member. by eapply lock_depth_of.
  - intros m μ rc μ' H%hold_at_member. by eapply unlock_depth_of.
  - intros m μ st μ' H%hold_at_member.
    apply reset_depth_of in H as [? ->]. eauto.
  - intros m x μ μ' H%hold_at_member. by eapply restore_depth_of.
Defined.
End RecursiveMutex_facts.

(** ** TLockGuard *)

Section TLockGuard_claims.
Context {W St : Type} {B : TVirtualMutex W St}.
Implicit Types (m : loc) (s : traced W St) (g : TLockGuard.t).

(** C1.  A [TLockGuard] constructed on a non-null mutex [m] has called
    [Lock()] on [m] once when its constructor returns, and the scope is
    entered in the memory that call left: the depth at which the caller
    holds [m] has gone up by one.  From then on the guard calls nothing but
    [UnLock()] on [m], at most once however the body ends, and exactly once
    as soon as control leaves the scope, by a return or by an exception,
    whether the body called [guard.UnLock()] never, once or many times. *)
Theorem TLockGuard_locks_once_unlocks_once {R : Reentrant B}
    m (body : list (stmt W)) s g s1 :
  TLockGuard.ctor (Some m) s = Return g s1 →
  calls s1 = calls s ++ [on_mutex m MLock] ∧
  (∃ rc, Lock m (mem s) = Return rc (mem s1)) ∧
  held m (mem s1) = S (held m (mem s)) ∧
  (calls (final (lock_scope (Some m) body s)) = calls s ++ [on_mutex m MLock] ∨
   calls (final (lock_scope (Some m) body s)) =
     calls s ++ [on_mutex m MLock; on_mutex m MUnLock]) ∧
  (exits (run body (Frame g s1)) →
   calls (final (lock_scope (Some m) body s)) =
     calls s ++ [on_mutex m MLock; on_mutex m MUnLock]).
Proof.
  intros Hc.
  assert (exits (run body (Frame g s1)) →
          calls (final (lock_scope (Some m) body s)) =
            calls s ++ [on_mutex m MLock; on_mutex m MUnLock]) as Hexit
    by (intros; by eapply lock_scope_calls).
  pose proof Hc as Hc'. rewrite ctor_held in Hc'.
  destruct (Lock m (mem s)) as [rc μ| |] eqn:HL; [|done..].
  injection Hc' as <- <-. cbn [mem calls].
  repeat split; [by exists rc|by eapply Lock_held| |done].
  destruct (run body (Frame (TLockGuard.Build (Some m))
              (Traced μ (calls s ++ [on_mutex m MLock])))) as [[] f|e f|h f] eqn:Hr;
    [right; by apply Hexit..|].
  pose proof (run_guard_after body (TLockGuard.Build (Some m))
                (Traced μ (calls s ++ [on_mutex m MLock]))) as Ha.
  unfold lock_scope, scope. rewrite Hc, Hr in *. cbn in Ha |- *.
  destruct Ha as [[_ ->]|[_ ->]]; [by left|right; by rewrite <- app_assoc].
Qed.

(** C5.  [TLockGuard::UnLock()] on a guard that holds [m] ends as the
    mutex's [UnLock()] ends: it returns the status that call returned (and
    throws what it throws).  On a guard that holds nothing it returns 0 and
    changes nothing.  Either way the guard holds nothing afterwards, so the
    destructor and a second [UnLock()] call nothing and change nothing. *)
Theorem TLockGuard_UnLock_status g s :
  match TLockGuard.fMutex g with
  | Some m =>
      let log := calls s ++ [on_mutex m MUnLock] in
      match UnLock m (mem s) with
      | Return rc μ =>
          TLockGuard.UnLock (Frame g s) =
            Return rc (Frame (TLockGuard.Build None) (Traced μ log))
      | Throw e μ =>
          TLockGuard.UnLock (Frame g s) =
            Throw e (Frame (TLockGuard.Build None) (Traced μ log))
      | Halt h μ =>
          TLockGuard.UnLock (Frame g s) =
            Halt h (Frame (TLockGuard.Build None) (Traced μ log))
      end
  | None => TLockGuard.UnLock (Frame g s) = Return 0%Z (Frame g s)
  end ∧
  let f := final (TLockGuard.UnLock (Frame g s)) in
  TLockGuard.fMutex (this f) = None ∧
  TLockGuard.dtor f = Return tt f ∧
  TLockGuard.UnLock f = Return 0%Z f.
Proof.
  destruct g as [[m|]]; cbn [TLockGuard.fMutex].
  - rewrite UnLock_held_eq. prog.
    by destruct (UnLock m (mem s)).
  - by rewrite UnLock_null.
Qed.

(** C9.  [TLockGuard::UnLock()] has cleared [fMutex] when it calls the
    mutex: if the mutex's [UnLock()] throws, the exception leaves the guard
    holding nothing, the one [UnLock()] logged, and the destructor that
    runs next calls nothing. *)
Theorem TLockGuard_UnLock_clears_first m s e f :
  TLockGuard.UnLock (Frame (TLockGuard.Build (Some m)) s) = Throw e f →
  (∃ μ, UnLock m (mem s) = Throw e μ ∧
        env f = Traced μ (calls s ++ [on_mutex m MUnLock])) ∧
  TLockGuard.fMutex (this f) = None ∧
  TLockGuard.dtor f = Return tt f ∧
  leave TLockGuard.dtor (Throw (A:=Z) e f) = Throw e (env f).
Proof.
  rewrite UnLock_held_eq. prog.
  destruct (UnLock m (mem s)) as [|e' μ|] eqn:HU; [done| |done].
  intros [= -> <-]. cbn.
  split; [by exists μ|]. done.
Qed.
End TLockGuard_claims.

Lemma TLockGuard_locks_once_unlocks_once_witness :
  calls (final (lock_scope (B := RecursiveMutex.backend 1) (Some 0)
                  [guard_UnLock; guard_UnLock; other (Fixture.fail 3)]
                  Fixture.one_mutex)) =
    [on_mutex 0 MLock; on_mutex 0 MUnLock].
Proof.
  destruct (TLockGuard_locks_once_unlocks_once
              (B := RecursiveMutex.backend 1) 0
              [guard_UnLock; guard_UnLock; other (Fixture.fail 3)]
              Fixture.one_mutex _ _ eq_refl) as (_ & _ & _ & _ & H).
  apply H. exact I.
Defined.

Lemma TLockGuard_UnLock_clears_first_witness :
  TLockGuard.dtor (B := Stub.backend (Stub.throwing 5))
    (Frame (TLockGuard.Build None)
           (Traced (mem Stub.empty) [on_mutex 2 MUnLock])) =
  Return tt (Frame (TLockGuard.Build None)
                   (Traced (mem Stub.empty) [on_mutex 2 MUnLock])).
Proof.
  exact (proj1 (proj2 (proj2
    (TLockGuard_UnLock_clears_first (B := Stub.backend (Stub.throwing 5))
       2 Stub.empty 5 _ eq_refl)))).
Defined.

(** ** TLockSuspend *)

Section TLockSuspend_claims.
Context {W St : Type} {B : TVirtualMutex W St}.
Implicit Types (m : loc) (s : traced W St) (g : TLockSuspend.t St).

(** The constructor on a mutex: one [Reset], whose snapshot is kept. *)
Lemma suspend_ctor_held m s :
  TLockSuspend.ctor (Some m) s =
    match Reset m (mem s) with
    | Return st μ =>
        Return (TLockSuspend.Build (Some m) st) (Traced μ (calls s ++ [on_mutex m MReset]))
    | Throw e μ => Throw e (Traced μ (calls s ++ [on_mutex m MReset]))
    | Halt h μ => Halt h (Traced μ (calls s ++ [on_mutex m MReset]))
    end.
Proof. prog. by destruct (Reset m (mem s)). Qed.

(** The destructor of a guard on a mutex: one [Restore], of its snapshot. *)
Lemma suspend_dtor_held m st s :
  TLockSuspend.dtor (Frame (TLockSuspend.Build (Some m) st) s) =
    match Restore m st (mem s) with
    | Return _ μ =>
        Return tt (Frame (TLockSuspend.Build (Some m) st)
                         (Traced μ (calls s ++ [on_mutex m (MRestore st)])))
    | Throw _ μ | Halt Terminate μ =>
        Halt Terminate (Frame (TLockSuspend.Build (Some m) st)
                              (Traced μ (calls s ++ [on_mutex m (MRestore st)])))
    | Halt h μ =>
        Halt h (Frame (TLockSuspend.Build (Some m) st)
                      (Traced μ (calls s ++ [on_mutex m (MRestore st)])))
    end.
Proof. prog. destruct (Restore m st (mem s)) as [[]| |[]]; done. Qed.

(** C2.  A [TLockSuspend] constructed on a non-null mutex [m] has called
    [Reset()] on [m] once and keeps the snapshot it returned; the scope is
    entered in the memory that call left, in which the caller holds [m] at
    depth 0.  While the guard lives it calls nothing.  When control leaves
    the scope, by a return or by an exception, the destructor calls
    [Restore()] on [m] once, with that snapshot; when that call returns,
    the caller holds [m] at the depth it held it at before construction. *)
Theorem TLockSuspend_resets_then_restores {R : Reentrant B}
    m (body : code W) s g s1 :
  TLockSuspend.ctor (Some m) s = Return g s1 →
  exits (run_code (St := St) body (Frame g s1)) →
  let s2 := env (final (run_code body (Frame g s1))) in
  let r := suspend_scope (Some m) body s in
  TLockSuspend.fMutex g = Some m ∧
  Reset m (mem s) = Return (TLockSuspend.fState g) (mem s1) ∧
  calls s1 = calls s ++ [on_mutex m MReset] ∧
  held m (mem s1) = 0 ∧
  calls s2 = calls s1 ∧
  calls (final r) =
    calls s ++ [on_mutex m MReset; on_mutex m (MRestore (TLockSuspend.fState g))] ∧
  (exits r →
   Restore m (TLockSuspend.fState g) (mem s2) = Return tt (mem (final r)) ∧
   held m (mem (final r)) = held m (mem s)).
Proof.
  intros Hc Hx s2 r. subst s2 r.
  unfold suspend_scope, scope. rewrite Hc.
  rewrite suspend_ctor_held in Hc.
  destruct (Reset m (mem s)) as [st μ| |] eqn:HR; [|done..].
  injection Hc as <- <-. cbn [TLockSuspend.fMutex TLockSuspend.fState mem calls].
  destruct (Reset_held _ _ _ _ HR) as (H0 & x & -> & Hx').
  destruct (run_code_frame (St := St) body
              (Frame (TLockSuspend.Build (Some m) (Some x))
                     (Traced μ (calls s ++ [on_mutex m MReset])))) as [Ethis Ecalls].
  cbn [this env calls] in Ethis, Ecalls.
  do 5 (split; [done|]).
  destruct (run_code body _) as [[] [g2 s2]|e [g2 s2]|h [g2 s2]];
    [| |done]; cbn [final this env] in *; subst g2;
    unfold leave; rewrite suspend_dtor_held;
    (destruct (Restore m (Some x) (mem s2)) as [[] μ3|e' μ3|[] μ3] eqn:HS;
     cbn; rewrite Ecalls, <- app_assoc; (split; [done|]); try done;
     intros _; split; [done|];
     by rewrite (Restore_held _ _ _ _ HS)).
Qed.

(** C6.  Guards built on a null pointer do nothing: constructing them,
    [TLockGuard::UnLock()] and destroying them return at once, in the state
    they started in ([UnLock()] with status 0), and a scope they guard logs
    no call whatever its body does. *)
Theorem null_guards_do_nothing s (body : list (stmt W)) (c : code W) :
  TLockGuard.ctor None s = Return (TLockGuard.Build None) s ∧
  TLockGuard.UnLock (Frame (TLockGuard.Build None) s) =
    Return 0%Z (Frame (TLockGuard.Build None) s) ∧
  TLockGuard.dtor (Frame (TLockGuard.Build None) s) =
    Return tt (Frame (TLockGuard.Build None) s) ∧
  TLockSuspend.ctor None s = Return (TLockSuspend.Build None None) s ∧
  TLockSuspend.dtor (Frame (TLockSuspend.Build None None) s) =
    Return tt (Frame (TLockSuspend.Build None None) s) ∧
  calls (final (lock_scope None body s)) = calls s ∧
  suspend_scope None c s = restate (λ μ, Traced μ (calls s)) (c (mem s)).
Proof.
  do 5 (split; [done|]). split.
  - unfold lock_scope, scope. rewrite ctor_null.
    pose proof (run_guard_after body (TLockGuard.Build None) s) as Ha.
    unfold guard_after in Ha; cbn in Ha. destruct Ha as [Ht Hc].
    destruct (run body _) as [[] [g2 s2]|e [g2 s2]|h [g2 s2]];
      cbn in *; subst; done.
  - prog. by destruct (c (mem s)) as [[]| |].
Qed.
End TLockSuspend_claims.

Lemma TLockSuspend_resets_then_restores_witness :
  held (B := RecursiveMutex.backend 1) 0
    (mem (final (suspend_scope (B := RecursiveMutex.backend 1) (Some 0)
                   (Fixture.fail 3) Fixture.held_twice))) =
  held (B := RecursiveMutex.backend 1) 0 (mem Fixture.held_twice).
Proof.
  destruct (TLockSuspend_resets_then_restores
              (B := RecursiveMutex.backend 1) 0 (Fixture.fail 3)
              Fixture.held_twice _ _ eq_refl I) as (_ & _ & _ & _ & _ & _ & H).
  exact (proj2 (H I)).
Defined.

(** ** What the guards pass on *)

Section propagation.
Context {W St : Type} {B : TVirtualMutex W St}.
Implicit Types (m : loc) (s : traced W St).

Lemma suspend_scope_calls m (c : code W) s g s1 :
  TLockSuspend.ctor (Some m) s = Return g s1 →
  exits (run_code (St := St) c (Frame g s1)) →
  calls (final (suspend_scope (Some m) c s)) =
    calls s ++ [on_mutex m MReset; on_mutex m (MRestore (TLockSuspend.fState g))].
Proof.
  intros Hc Hx. unfold suspend_scope, scope. rewrite Hc.
  rewrite leave_exits by done.
  rewrite suspend_ctor_held in Hc.
  destruct (Reset m (mem s)) as [st μ| |]; [|done..].
  injection Hc as <- <-.
  destruct (run_code_frame (St := St) c
              (Frame (TLockSuspend.Build (Some m) st)
                     (Traced μ (calls s ++ [on_mutex m MReset])))) as [Et Ec].
  destruct (final (run_code c _)) as [g2 s2]. cbn in Et, Ec. subst g2.
  rewrite suspend_dtor_held. cbn [TLockSuspend.fState].
  destruct (Restore m st (mem s2)) as [[]| |[]]; cbn;
    by rewrite Ec, <- app_assoc.
Qed.

(** C7, as the code has it.  What a guard can pass on, it passes on
    unchanged: [TLockGuard::UnLock()] returns the status of the mutex's
    [UnLock()], the snapshot [Reset()] returned is the one [Restore()] gets,
    and an exception thrown by [Lock()], [Reset()] or by [UnLock()] under
    [TLockGuard::UnLock()] reaches the caller.  The status [Lock()] returns
    to the constructor and the status [UnLock()] returns to the destructor
    are dropped: the outcome does not mention them.  On every path out of
    the scope, return or exception, the guard has made its [UnLock()] or
    [Restore()] call, once. *)
Theorem guards_pass_on_what_they_can m s (body : list (stmt W)) (c : code W) st :
  match Lock m (mem s) with
  | Return _ μ =>
      TLockGuard.ctor (Some m) s =
        Return (TLockGuard.Build (Some m)) (Traced μ (calls s ++ [on_mutex m MLock]))
  | Throw e μ =>
      TLockGuard.ctor (Some m) s = Throw e (Traced μ (calls s ++ [on_mutex m MLock]))
  | Halt h μ =>
      TLockGuard.ctor (Some m) s = Halt h (Traced μ (calls s ++ [on_mutex m MLock]))
  end ∧
  match UnLock m (mem s) with
  | Return rc μ =>
      TLockGuard.UnLock (Frame (TLockGuard.Build (Some m)) s) =
        Return rc (Frame (TLockGuard.Build None) (Traced μ (calls s ++ [on_mutex m MUnLock]))) ∧
      TLockGuard.dtor (Frame (TLockGuard.Build (Some m)) s) =
        Return tt (Frame (TLockGuard.Build (Some m)) (Traced μ (calls s ++ [on_mutex m MUnLock])))
  | Throw e μ =>
      TLockGuard.UnLock (Frame (TLockGuard.Build (Some m)) s) =
        Throw e (Frame (TLockGuard.Build None) (Traced μ (calls s ++ [on_mutex m MUnLock])))
  | Halt h μ =>
      TLockGuard.UnLock (Frame (TLockGuard.Build (Some m)) s) =
        Halt h (Frame (TLockGuard.Build None) (Traced μ (calls s ++ [on_mutex m MUnLock])))
  end ∧
  match Reset m (mem s) with
  | Return x μ =>
      TLockSuspend.ctor (Some m) s =
        Return (TLockSuspend.Build (Some m) x) (Traced μ (calls s ++ [on_mutex m MReset]))
  | Throw e μ =>
      TLockSuspend.ctor (Some m) s = Throw e (Traced μ (calls s ++ [on_mutex m MReset]))
  | Halt h μ =>
      TLockSuspend.ctor (Some m) s = Halt h (Traced μ (calls s ++ [on_mutex m MReset]))
  end ∧
  mem (env (final (TLockSuspend.dtor (Frame (TLockSuspend.Build (Some m) st) s)))) =
    final (Restore m st (mem s)) ∧
  (∀ g s1, TLockGuard.ctor (Some m) s = Return g s1 →
           exits (run body (Frame g s1)) →
           calls (final (lock_scope (Some m) body s)) =
             calls s ++ [on_mutex m MLock; on_mutex m MUnLock]) ∧
  (∀ g s1, TLockSuspend.ctor (Some m) s = Return g s1 →
           exits (run_code (St := St) c (Frame g s1)) →
           calls (final (suspend_scope (Some m) c s)) =
             calls s ++ [on_mutex m MReset;
                         on_mutex m (MRestore (TLockSuspend.fState g))]).
Proof.
  split; [by rewrite ctor_held; destruct (Lock m (mem s))|].
  split; [rewrite UnLock_held_eq; prog; by destruct (UnLock m (mem s))|].
  split; [by rewrite suspend_ctor_held; destruct (Reset m (mem s))|].
  split; [rewrite suspend_dtor_held; by destruct (Restore m st (mem s)) as [| |[]]|].
  split; [intros; by eapply lock_scope_calls|intros; by eapply suspend_scope_calls].
Qed.
End propagation.

(** C7, as the spec has it, fails: two backends that differ only in the
    status their [Lock()] reports give the constructor the same outcome, so
    nothing the caller can look at tells the two statuses apart. *)
Lemma Lock_status_is_dropped :
  Lock (TVirtualMutex := Stub.backend (Stub.reporting 0)) 0 (mem Stub.empty) =
    Return 0%Z (mem Stub.empty) ∧
  Lock (TVirtualMutex := Stub.backend (Stub.reporting 13)) 0 (mem Stub.empty) =
    Return 13%Z (mem Stub.empty) ∧
  TLockGuard.ctor (B := Stub.backend (Stub.reporting 0)) (Some 0) Stub.empty =
    TLockGuard.ctor (B := Stub.backend (Stub.reporting 13)) (Some 0) Stub.empty ∧
  ¬ ∃ observe : outcome TLockGuard.t (traced unit unit) → Z,
      ∀ rc, observe (TLockGuard.ctor (B := Stub.backend (Stub.reporting rc))
                       (Some 0) Stub.empty) = rc.
Proof.
  do 3 (split; [reflexivity|]).
  intros [observe H].
  pose proof (H 0%Z) as H0. pose proof (H 13%Z) as H13.
  change (TLockGuard.ctor (B := Stub.backend (Stub.reporting 13)) (Some 0) Stub.empty)
    with (TLockGuard.ctor (B := Stub.backend (Stub.reporting 0)) (Some 0) Stub.empty) in H13.
  congruence.
Qed.

Lemma guards_pass_on_what_they_can_witness :
  calls (final (lock_scope (B := RecursiveMutex.backend 1) (Some 0)
                  [other (Fixture.fail 4)] Fixture.one_mutex)) =
    [on_mutex 0 MLock; on_mutex 0 MUnLock] ∧
  calls (final (suspend_scope (B := RecursiveMutex.backend 1) (Some 0)
                  (Fixture.fail 4) Fixture.held_twice)) =
    [on_mutex 0 MReset;
     on_mutex 0 (MRestore (Some (RecursiveMutex.Snapshot 2)))].
Proof.
  destruct (guards_pass_on_what_they_can (B := RecursiveMutex.backend 1)
              0 Fixture.one_mutex [other (Fixture.fail 4)] (Fixture.fail 4) None)
    as (_ & _ & _ & _ & H1 & _).
  destruct (guards_pass_on_what_they_can (B := RecursiveMutex.backend 1)
              0 Fixture.held_twice [other (Fixture.fail 4)] (Fixture.fail 4) None)
    as (_ & _ & _ & _ & _ & H2).
  split; [exact (H1 _ _ eq_refl I)|exact (H2 _ _ eq_refl I)].
Defined.

(** ** The recursive mutex: depth and round trip *)

Section RecursiveMutex_claims.
Import RecursiveMutex.
Implicit Types (t : tid) (h : hold) (m : loc) (μ : memory heap) (ops : list op).

Lemma member_done {A} (f : hold → step A) m μ o a h :
  objects μ !! m = Some o → f (state o) = Done a h →
  member f m μ = Return a (Memory (cells μ) (<[m := Mutex (recursive o) h]> (objects μ))).
Proof. unfold member. by intros -> ->. Qed.

Lemma lookup_updated m μ o (o' : mutex) :
  objects μ !! m = Some o →
  objects (Memory (cells μ) (<[m := o']> (objects μ))) !! m = Some o'.
Proof.
  intros Ho. cbn [objects]. apply list_lookup_insert_eq. by eapply lookup_lt_Some.
Qed.

Lemma hold_at_lookup m μ o : objects μ !! m = Some o → hold_at m μ = state o.
Proof. unfold hold_at. by intros ->. Qed.

Lemma count_cons_same (x : op) ops : count x (x :: ops) = S (count x ops).
Proof. unfold count. by rewrite filter_cons_True. Qed.

Lemma count_cons_other (x y : op) ops : y ≠ x → count x (y :: ops) = count x ops.
Proof. intros. unfold count. by rewrite filter_cons_False. Qed.

(** A run of [Lock()]/[UnLock()] by the thread that alone uses the lock,
    started at any depth [d] that the unlocks never exhaust. *)
Lemma perform_depth t m ops : ∀ μ o,
  objects μ !! m = Some o →
  depth_of t (state o) = depth (state o) →
  (∀ n, count U (take n ops) ≤ depth (state o) + count L (take n ops)) →
  ∃ μ', perform t m ops μ = Return tt μ' ∧
        depth (hold_at m μ') + count U ops = depth (state o) + count L ops ∧
        depth_of t (hold_at m μ') = depth (hold_at m μ').
Proof.
  induction ops as [|[] ops IH]; intros μ o Ho Hown Hbal.
  - exists μ. rewrite (hold_at_lookup _ _ _ Ho). cbn. auto with lia.
  - (* Lock *)
    assert (∃ h, lock t (state o) = Done kSuccess h ∧
                 depth h = S (depth (state o)) ∧ depth_of t h = depth h)
      as (h & Hl & Hd & Hown').
    { destruct (state o) as [|t0 n]; cbn in *.
      - eexists; repeat split. cbn. by rewrite decide_True.
      - destruct (decide (t0 = t)) as [->|]; [|done].
        eexists; repeat split. cbn. by rewrite decide_True. }
    destruct (IH _ _ (lookup_updated m μ o (Mutex (recursive o) h) Ho))
      as (μ' & Hp & Hdepth & Ho'); cbn [state]; [done| |].
    { intros n. specialize (Hbal (S n)). cbn [take] in Hbal.
      rewrite count_cons_same, count_cons_other in Hbal by done. lia. }
    exists μ'. cbn [perform]. unfold bind. cbn [Lock backend].
    rewrite (member_done _ _ _ _ _ _ Ho Hl), Hp.
    rewrite count_cons_same, count_cons_other by done.
    cbn [state] in Hdepth. split; [done|]. split; [lia|done].
  - (* UnLock *)
    assert (∃ h, unlock t (state o) = Done kSuccess h ∧
                 S (depth h) = depth (state o) ∧ depth_of t h = depth h)
      as (h & Hu & Hd & Hown').
    { specialize (Hbal 1). cbn [take] in Hbal.
      rewrite count_cons_same, count_cons_other in Hbal by done.
      change (take 0 ops) with (@nil op) in Hbal. cbn in Hbal.
      destruct (state o) as [|t0 n]; cbn in *; [lia|].
      destruct (decide (t0 = t)) as [->|]; [|done].
      eexists; split; [done|]. destruct n; cbn; [done|]. by rewrite decide_True. }
    destruct (IH _ _ (lookup_updated m μ o (Mutex (recursive o) h) Ho))
      as (μ' & Hp & Hdepth & Ho'); cbn [state]; [done| |].
    { intros n. specialize (Hbal (S n)). cbn [take] in Hbal.
      rewrite count_cons_same, count_cons_other in Hbal by done. lia. }
    exists μ'. cbn [perform]. unfold bind. cbn [UnLock backend].
    rewrite (member_done _ _ _ _ _ _ Ho Hu), Hp.
    rewrite count_cons_same, count_cons_other by done.
    cbn [state] in Hdepth. split; [done|]. split; [lia|done].
Qed.

(** C4.  Thread [t] runs any sequence of [Lock()] and [UnLock()] calls on
    an unheld mutex, no prefix of which unlocks more than it locks.  Every
    call returns, the hold depth at the end is the number of [Lock()] calls
    minus the number of [UnLock()] calls, and a [TryLock()] by another
    thread then returns, with a failure status exactly when that depth is
    above 0. *)
Theorem Lock_UnLock_depth t t' m ops μ o :
  objects μ !! m = Some o → state o = Free → balanced ops → t' ≠ t →
  ∃ μ', perform t m ops μ = Return tt μ' ∧
        depth (hold_at m μ') = count L ops - count U ops ∧
        ∃ rc μ'', TryLock (TVirtualMutex := backend t') m μ' = Return rc μ'' ∧
                  (rc ≠ kSuccess ↔ 0 < depth (hold_at m μ')).
Proof.
  intros Ho Hfree Hbal Hne.
  destruct (perform_depth t m ops μ o Ho) as (μ' & Hp & Hd & Hown).
  { by rewrite Hfree. }
  { intros n. specialize (Hbal n). lia. }
  exists μ'. rewrite Hfree in Hd. cbn in Hd.
  split; [done|]. split; [lia|].
  assert (∃ o', objects μ' !! m = Some o') as [o' Ho'].
  { clear -Ho Hp. revert μ o Ho Hp.
    induction ops as [|x ops IH]; intros μ o Ho Hp.
    - cbn in Hp. injection Hp as <-. eauto.
    - cbn [perform] in Hp. unfold bind in Hp.
      destruct x; cbn [Lock UnLock backend] in Hp.
      + destruct (member (lock t) m μ) as [rc μ1| |] eqn:Hm; [|done..].
        apply member_returns in Hm as (o1 & h1 & Ho1 & _ & ->).
        eapply IH; [|done]. by eapply lookup_updated.
      + destruct (member (unlock t) m μ) as [rc μ1| |] eqn:Hm; [|done..].
        apply member_returns in Hm as (o1 & h1 & Ho1 & _ & ->).
        eapply IH; [|done]. by eapply lookup_updated. }
  rewrite (hold_at_lookup _ _ _ Ho') in *.
  cbn [TryLock backend]. unfold member. rewrite Ho'.
  destruct (state o') as [|t0 n]; cbn in *.
  - do 2 eexists. split; [done|]. split; [done|lia].
  - destruct (decide (t0 = t)) as [->|]; [|done].
    rewrite decide_False by done.
    do 2 eexists. split; [done|]. split; [lia|done].
Qed.

(** C3.  On a mutex in any hold state, unheld, held by the caller at any
    depth, or held by another thread, [Reset()] returns a snapshot and
    leaves the caller holding nothing, and [Restore()] of that snapshot,
    called next, returns and puts the memory back as it was: same holder,
    same depth. *)
Theorem Reset_Restore_round_trip t m μ o :
  objects μ !! m = Some o →
  ∃ st μ1 μ2,
    Reset (TVirtualMutex := backend t) m μ = Return st μ1 ∧
    depth_of t (hold_at m μ1) = 0 ∧
    Restore (TVirtualMutex := backend t) m st μ1 = Return tt μ2 ∧
    hold_at m μ2 = hold_at m μ ∧
    depth (hold_at m μ2) = depth (hold_at m μ) ∧
    μ2 = μ.
Proof.
  intros Ho. cbn [Reset Restore backend].
  pose proof (member_done (reset t) m μ o _ _ Ho eq_refl) as HR.
  set (h1 := match state o with
             | Free => Free
             | Held o0 _ => if decide (o0 = t) then Free else state o
             end) in HR.
  assert (restore t (Some (Snapshot (depth_of t (state o)))) h1 = Done tt (state o)
          ∧ depth_of t h1 = 0) as [Hs H0].
  { subst h1. destruct (state o) as [|t0 n]; cbn; [done|].
    destruct (decide (t0 = t)) as [->|Hne]; cbn; [done|].
    by rewrite !decide_False by done. }
  pose proof (member_done (restore t (Some (Snapshot (depth_of t (state o))))) m _ _ _ _
                (lookup_updated m μ o (Mutex (recursive o) h1) Ho) Hs) as HS.
  cbn [cells objects recursive] in HS.
  rewrite list_insert_insert_eq in HS.
  assert (<[m := Mutex (recursive o) (state o)]> (objects μ) = objects μ) as Hid.
  { apply list_insert_id. by destruct o. }
  rewrite Hid in HS.
  do 3 eexists. split; [exact HR|].
  split.
  { rewrite (hold_at_lookup _ _ _ (lookup_updated m μ o _ Ho)). done. }
  split; [exact HS|].
  by destruct μ.
Qed.
End RecursiveMutex_claims.

Lemma Lock_UnLock_depth_witness :
  ∃ μ', RecursiveMutex.perform 1 0 [RecursiveMutex.L; RecursiveMutex.L; RecursiveMutex.U] (mem Fixture.one_mutex) =
          Return tt μ' ∧
        RecursiveMutex.depth (RecursiveMutex.hold_at 0 μ') = 1 ∧
        ∃ rc μ'', TryLock (TVirtualMutex := RecursiveMutex.backend 2) 0 μ' = Return rc μ'' ∧
                  (rc ≠ RecursiveMutex.kSuccess ↔
                   0 < RecursiveMutex.depth (RecursiveMutex.hold_at 0 μ')).
Proof.
  refine (Lock_UnLock_depth 1 2 0 [RecursiveMutex.L; RecursiveMutex.L; RecursiveMutex.U] (mem Fixture.one_mutex)
            _ eq_refl eq_refl _ _).
  - intros [|[|[|[|n]]]]; vm_compute; lia.
  - lia.
Defined.

Lemma Reset_Restore_round_trip_witness :
  ∃ st μ1 μ2,
    Reset (TVirtualMutex := RecursiveMutex.backend 1) 0 (mem Fixture.held_twice) =
      Return st μ1 ∧
    RecursiveMutex.depth_of 1 (RecursiveMutex.hold_at 0 μ1) = 0 ∧
    Restore (TVirtualMutex := RecursiveMutex.backend 1) 0 st μ1 = Return tt μ2 ∧
    RecursiveMutex.hold_at 0 μ2 = RecursiveMutex.hold_at 0 (mem Fixture.held_twice) ∧
    RecursiveMutex.depth (RecursiveMutex.hold_at 0 μ2) =
      RecursiveMutex.depth (RecursiveMutex.hold_at 0 (mem Fixture.held_twice)) ∧
    μ2 = mem Fixture.held_twice.
Proof.
  exact (Reset_Restore_round_trip 1 0 (mem Fixture.held_twice) _ eq_refl).
Defined.

(** ** The macros *)

Section macro_claims.
Context {W St : Type} {B : TVirtualMutex W St}.
Implicit Types (s : traced W St) (cfg : build) (x : var).

(** C8.  Each [R__RWLOCK_*] macro calls its member of the read/write
    lock exactly when [R__USE_IMT] is compiled in and
    [IsParTreeProcessingEnabled()] answers true: then the macro is that one
    call; otherwise it returns at once and nothing has changed. *)
Theorem rwlock_macros_are_gated (enabled : memory W → bool)
    (ReadLock ReadUnLock WriteLock WriteUnLock : loc → code W)
    (k : rwmethod) cfg (rwlock : loc) s :
  let macro := rwlock_macro (St := St) enabled ReadLock ReadUnLock WriteLock WriteUnLock k in
  let member := rw_member ReadLock ReadUnLock WriteLock WriteUnLock k in
  (if R__USE_IMT cfg && enabled (mem s)
   then macro cfg rwlock s =
          restate (λ μ, Traced μ (calls s ++ [on_rwlock rwlock k])) (member rwlock (mem s))
   else macro cfg rwlock s = Return tt s) ∧
  (on_rwlock rwlock k ∈ drop (length (calls s)) (calls (final (macro cfg rwlock s)))
   ↔ R__USE_IMT cfg = true ∧ enabled (mem s) = true) ∧
  rwlock_macro (St := St) enabled ReadLock ReadUnLock WriteLock WriteUnLock MReadLock =
    R__RWLOCK_ACQUIRE_READ enabled ReadLock ReadUnLock WriteLock WriteUnLock ∧
  rwlock_macro (St := St) enabled ReadLock ReadUnLock WriteLock WriteUnLock MReadUnLock =
    R__RWLOCK_RELEASE_READ enabled ReadLock ReadUnLock WriteLock WriteUnLock ∧
  rwlock_macro (St := St) enabled ReadLock ReadUnLock WriteLock WriteUnLock MWriteLock =
    R__RWLOCK_ACQUIRE_WRITE enabled ReadLock ReadUnLock WriteLock WriteUnLock ∧
  rwlock_macro (St := St) enabled ReadLock ReadUnLock WriteLock WriteUnLock MWriteUnLock =
    R__RWLOCK_RELEASE_WRITE enabled ReadLock ReadUnLock WriteLock WriteUnLock.
Proof.
  intros macro member.
  assert (macro cfg rwlock s =
            if R__USE_IMT cfg && enabled (mem s)
            then restate (λ μ, Traced μ (calls s ++ [on_rwlock rwlock k]))
                         (member rwlock (mem s))
            else Return tt s) as E.
  { subst macro member.
    destruct k; cbn [rwlock_macro];
      unfold R__RWLOCK_ACQUIRE_READ, R__RWLOCK_RELEASE_READ,
        R__RWLOCK_ACQUIRE_WRITE, R__RWLOCK_RELEASE_WRITE, when_enabled, call_rw,
        dispatch, ret;
      by destruct (R__USE_IMT cfg), (enabled (mem s)). }
  split; [by destruct (R__USE_IMT cfg && enabled (mem s))|].
  split; [|done].
  rewrite E.
  destruct (R__USE_IMT cfg && enabled (mem s)) eqn:Hg.
  - apply andb_true_iff in Hg.
    assert (calls (final (restate (λ μ, Traced μ (calls s ++ [on_rwlock rwlock k]))
                            (member rwlock (mem s)))) =
            calls s ++ [on_rwlock (St := St) rwlock k]) as ->
      by (by destruct (member rwlock (mem s))).
    rewrite drop_app_length. split; [done|]. intros _. apply list_elem_of_here.
  - cbn. rewrite drop_all. split; [by intros ?%elem_of_nil|].
    intros Hg'%andb_true_iff. congruence.
Qed.
End macro_claims.

Section R__LOCKGUARD2_claims.
Context {W St : Type} {B : TVirtualMutex W St}.
Implicit Types (s : traced W St) (cfg : build) (x : var) (gm : loc).
Local Open Scope prog_scope.

(** With thread support [R__LOCKGUARD(mutex)] declares a guard on the
    value [mutex] has at that point. *)
Lemma R__LOCKGUARD_threads cfg (mutex : memory W → option loc) s :
  thread_support cfg = true →
  R__LOCKGUARD cfg mutex s =
    (let! guard := TLockGuard.ctor (mutex (mem s)) in ret (Some guard)) s.
Proof. unfold R__LOCKGUARD. by intros ->. Qed.

(** C10.  [R__LOCKGUARD2(mutex)], compiled with thread support, run with
    [gGlobalMutex] non-null and [mutex] null: it calls [Lock()] on the
    global mutex and reads [mutex] again.  If [mutex] is still null it
    calls [gGlobalMutex->Factory(kTRUE)], assigns the result to [mutex],
    calls [UnLock()] on the global mutex and only then constructs the
    [TLockGuard], on the value [mutex] now has.  If another thread set
    [mutex] while [Lock()] waited, no factory call is made. *)
Theorem R__LOCKGUARD2_creates_under_gGlobalMutex gm cfg x s rc1 μ1 :
  thread_support cfg = true →
  load x (mem s) = None →
  Lock gm (mem s) = Return rc1 μ1 →
  match load x μ1 with
  | None =>
      ∀ fresh μ2 rc3 μ3,
        Factory gm true μ1 = Return fresh μ2 →
        UnLock gm (store x fresh μ2) = Return rc3 μ3 →
        load x (store x fresh μ2) = fresh ∧
        R__LOCKGUARD2 (Some gm) cfg x s =
          (let! guard := TLockGuard.ctor (load x μ3) in ret (Some guard))
            (Traced μ3 (calls s ++ [on_mutex gm MLock;
                                    on_mutex gm (MFactory true);
                                    on_mutex gm MUnLock]))
  | Some _ =>
      ∀ rc3 μ3,
        UnLock gm μ1 = Return rc3 μ3 →
        R__LOCKGUARD2 (Some gm) cfg x s =
          (let! guard := TLockGuard.ctor (load x μ3) in ret (Some guard))
            (Traced μ3 (calls s ++ [on_mutex gm MLock; on_mutex gm MUnLock]))
  end.
Proof.
  intros Hcfg Hnull HL.
  unfold R__LOCKGUARD2. rewrite Hcfg.
  destruct (load x μ1) as [n|] eqn:Hx.
  - intros rc3 μ3 HU.
    unfold bind at 1 2. unfold read at 1. rewrite Hnull.
    unfold bind at 1. unfold call_Lock, dispatch. rewrite HL. cbn [restate].
    unfold bind at 1 2. unfold read. cbn [mem]. rewrite Hx.
    unfold ret at 1. unfold bind at 1.
    unfold call_UnLock, dispatch. cbn [mem calls]. rewrite HU. cbn [restate].
    unfold ret at 1. rewrite R__LOCKGUARD_threads by done.
    cbn [mem]. by rewrite <- app_assoc.
  - intros fresh μ2 rc3 μ3 HF HU. split.
    { unfold load, store. cbn. by rewrite decide_True. }
    unfold bind at 1 2. unfold read at 1. rewrite Hnull.
    unfold bind at 1. unfold call_Lock, dispatch. rewrite HL. cbn [restate].
    unfold bind at 1 2. unfold read. cbn [mem]. rewrite Hx.
    unfold bind at 1. unfold call_Factory, dispatch. cbn [mem calls].
    rewrite HF. cbn [restate]. unfold write. cbn [mem calls].
    unfold bind at 1. unfold call_UnLock, dispatch. cbn [mem calls].
    rewrite HU. cbn [restate].
    unfold ret at 1. rewrite R__LOCKGUARD_threads by done.
    cbn [mem]. by rewrite <- !app_assoc.
Qed.
End R__LOCKGUARD2_claims.

Lemma R__LOCKGUARD2_creates_under_gGlobalMutex_witness :
  R__LOCKGUARD2 (B := RecursiveMutex.backend 1) (Some 0)
    (Build_config true false) 5 Fixture.one_mutex =
  Return (Some (TLockGuard.Build (Some 1)))
    (Traced
       (store 5 (Some 1)
          (Memory (λ _, None)
             [RecursiveMutex.Mutex true RecursiveMutex.Free;
              RecursiveMutex.Mutex true (RecursiveMutex.Held 1 0)]))
       [on_mutex 0 MLock; on_mutex 0 (MFactory true); on_mutex 0 MUnLock;
        on_mutex 1 MLock]) ∧
  calls (final (R__LOCKGUARD2 (B := Stub.backend (Stub.racing 5 (Some 3))) (Some 0)
                  (Build_config true false) 5 Stub.empty)) =
    [on_mutex 0 MLock; on_mutex 0 MUnLock; on_mutex 3 MLock].
Proof.
  split.
  - pose proof (R__LOCKGUARD2_creates_under_gGlobalMutex
                  (B := RecursiveMutex.backend 1) 0 (Build_config true false) 5
                  Fixture.one_mutex _ _ eq_refl eq_refl eq_refl) as H.
    exact (proj2 (H _ _ _ _ eq_refl eq_refl)).
  - pose proof (R__LOCKGUARD2_creates_under_gGlobalMutex
                  (B := Stub.backend (Stub.racing 5 (Some 3))) 0
                  (Build_config true false) 5
                  Stub.empty _ _ eq_refl eq_refl eq_refl) as H.
    exact (f_equal (λ r, calls (final r)) (H _ _ eq_refl)).
Defined.

(** ** The scenarios of the specification, run on the recursive mutex *)

Section scenarios.
Import RecursiveMutex.

(** Thread 1 holds the mutex at depth 2 and suspends it: inside the scope
    the depth is 0 and thread 2's [TryLock()] succeeds; after the scope the
    depth is 2 again and thread 2's [TryLock()] fails. *)
Example suspend_scenario :
  let B1 := RecursiveMutex.backend 1 in
  let B2 := RecursiveMutex.backend 2 in
  let inside : code (list mutex) := λ μ,
    match TryLock (TVirtualMutex := B2) 0 μ with
    | Return rc μ' =>
        if decide (rc = kSuccess ∧ depth (hold_at 0 μ) = 0)
        then restate (λ μ, μ) (bind (UnLock (TVirtualMutex := B2) 0) (λ _, ret tt) μ')
        else Throw 9 μ'
    | _ => Throw 9 μ
    end in
  ∃ s', suspend_scope (B := B1) (Some 0) inside Fixture.held_twice = Return tt s' ∧
        hold_at 0 (mem s') = Held 1 1 ∧ depth (hold_at 0 (mem s')) = 2 ∧
        calls s' = [on_mutex 0 MReset; on_mutex 0 (MRestore (Some (Snapshot 2)))] ∧
        ∃ μ'', TryLock (TVirtualMutex := B2) 0 (mem s') = Return kBusy μ''.
Proof. cbn zeta. eexists. split; [reflexivity|]. cbn. eauto. Qed.

(** An error raised inside a guarded scope: the exception comes out and
    the mutex has been unlocked exactly once. *)
Example error_scenario :
  ∃ s', lock_scope (B := RecursiveMutex.backend 1) (Some 0)
          [other (Fixture.fail 7); guard_UnLock] Fixture.one_mutex = Throw 7 s' ∧
        hold_at 0 (mem s') = Free ∧
        calls s' = [on_mutex 0 MLock; on_mutex 0 MUnLock].
Proof. eexists. split; [reflexivity|]. by cbn. Qed.
End scenarios.

(** * Further properties of the header *)

Section macro_paths.
Context {W St : Type} {B : TVirtualMutex W St}.
Implicit Types (s : traced W St) (cfg : build) (x : var) (gm m : loc).
Local Open Scope prog_scope.

(** X1.  Compiled without thread support, [R__LOCKGUARD], [R__LOCKGUARD2],
    [R__LOCK_SUSPEND], [R__LOCKGUARD_IMT] and [R__LOCKGUARD_IMT2] declare no
    guard and call nothing, whatever [gGlobalMutex], the mutex and the
    runtime flag are; compiled without [R__USE_IMT], so do the two [_IMT]
    macros. *)
Theorem macros_compiled_out (g : option loc) (enabled : memory W → bool)
    cfg (mutex : memory W → option loc) x s :
  (thread_support cfg = false →
   R__LOCKGUARD cfg mutex s = Return None s ∧
   R__LOCKGUARD2 g cfg x s = Return None s ∧
   R__LOCK_SUSPEND cfg mutex s = Return None s ∧
   R__LOCKGUARD_IMT enabled cfg mutex s = Return tt s ∧
   R__LOCKGUARD_IMT2 g enabled cfg x s = Return None s) ∧
  (R__USE_IMT cfg = false →
   R__LOCKGUARD_IMT enabled cfg mutex s = Return tt s ∧
   R__LOCKGUARD_IMT2 g enabled cfg x s = Return None s).
Proof.
  unfold R__LOCKGUARD, R__LOCKGUARD2, R__LOCK_SUSPEND, R__LOCKGUARD_IMT,
    R__LOCKGUARD_IMT2.
  split; intros ->; [by destruct (R__USE_IMT cfg)|done].
Qed.

(** X2.  [R__LOCKGUARD2(mutex)] touches [gGlobalMutex] only to create a
    missing mutex: when [mutex] is already set, or [gGlobalMutex] is null,
    it is [R__LOCKGUARD(mutex)], with no call on the global mutex, no
    factory call and no assignment.  With both pointers null (before the
    thread library is initialised) it declares a guard that holds nothing
    and calls nothing. *)
Theorem R__LOCKGUARD2_without_creation (g : option loc) cfg x s :
  g = None ∨ load x (mem s) ≠ None →
  R__LOCKGUARD2 g cfg x s = R__LOCKGUARD cfg (load x) s ∧
  (thread_support cfg = true → load x (mem s) = None →
   R__LOCKGUARD2 g cfg x s = Return (Some (TLockGuard.Build None)) s).
Proof.
  intros Hfast.
  assert (R__LOCKGUARD2 g cfg x s = R__LOCKGUARD cfg (load x) s) as E.
  { unfold R__LOCKGUARD2, R__LOCKGUARD.
    destruct (thread_support cfg); [|done].
    destruct g as [gm|]; [|done].
    destruct Hfast as [|Hset]; [done|].
    unfold bind at 1 2. unfold read at 1.
    by destruct (load x (mem s)). }
  split; [done|]. intros Hcfg Hnull. rewrite E.
  unfold R__LOCKGUARD. rewrite Hcfg. unfold bind at 1. by rewrite Hnull.
Qed.

(** X3.  The creation step of [R__LOCKGUARD2] is not protected by a
    guard: if [gGlobalMutex->Factory(kTRUE)] throws, the exception leaves
    the macro after [Lock()] and [Factory()] on the global mutex and before
    its [UnLock()], which is never called; nothing is assigned to [mutex]
    and no [TLockGuard] is constructed. *)
Theorem R__LOCKGUARD2_factory_throws gm cfg x s rc μ1 e μ2 :
  thread_support cfg = true →
  load x (mem s) = None →
  Lock gm (mem s) = Return rc μ1 →
  load x μ1 = None →
  Factory gm true μ1 = Throw e μ2 →
  R__LOCKGUARD2 (Some gm) cfg x s =
    Throw e (Traced μ2 (calls s ++ [on_mutex gm MLock; on_mutex gm (MFactory true)])) ∧
  on_mutex gm MUnLock ∉
    drop (length (calls s)) (calls (final (R__LOCKGUARD2 (Some gm) cfg x s))).
Proof.
  intros Hcfg Hnull HL Hx HF.
  assert (R__LOCKGUARD2 (Some gm) cfg x s =
            Throw e (Traced μ2 (calls s ++ [on_mutex gm MLock;
                                            on_mutex gm (MFactory true)]))) as E.
  { unfold R__LOCKGUARD2. rewrite Hcfg.
    unfold bind at 1 2. unfold read at 1. rewrite Hnull.
    unfold bind at 1. unfold call_Lock, dispatch. rewrite HL. cbn [restate].
    unfold bind at 1 2. unfold read. cbn [mem]. rewrite Hx.
    unfold bind at 1. unfold call_Factory, dispatch. cbn [mem calls].
    rewrite HF. cbn [restate]. by rewrite <- app_assoc. }
  split; [done|]. rewrite E. cbn [final calls].
  rewrite drop_app_length.
  intros Hin. apply elem_of_cons in Hin as [|Hin]; [done|].
  apply elem_of_cons in Hin as [|Hin]; [done|].
  by apply elem_of_nil in Hin.
Qed.

(** X5.  In [R__LOCKGUARD_IMT2(mutex)] the runtime flag gates the
    creation of a missing mutex only: with the flag on the macro is
    [R__LOCKGUARD2(mutex)], with the flag off it is [R__LOCKGUARD(mutex)],
    which still locks a mutex that is set. *)
Theorem R__LOCKGUARD_IMT2_always_guards (g : option loc)
    (enabled : memory W → bool) cfg x s :
  R__USE_IMT cfg = true → thread_support cfg = true →
  R__LOCKGUARD_IMT2 g enabled cfg x s =
    (if enabled (mem s) then R__LOCKGUARD2 g cfg x s
     else R__LOCKGUARD cfg (load x) s) ∧
  ∀ m, enabled (mem s) = false → load x (mem s) = Some m →
       R__LOCKGUARD_IMT2 g enabled cfg x s =
         (let! guard := TLockGuard.ctor (Some m) in ret (Some guard)) s.
Proof.
  intros Himt Hthr.
  assert (R__LOCKGUARD_IMT2 g enabled cfg x s =
            (if enabled (mem s) then R__LOCKGUARD2 g cfg x s
             else R__LOCKGUARD cfg (load x) s)) as E.
  { unfold R__LOCKGUARD_IMT2, R__LOCKGUARD2. rewrite Himt, Hthr.
    unfold bind at 1. by destruct (enabled (mem s)). }
  split; [done|]. intros m Hoff Hset. rewrite E, Hoff.
  rewrite R__LOCKGUARD_threads by done. by rewrite Hset.
Qed.

(** X6.  A guard whose constructor does not complete is never destroyed:
    when [Lock()] throws out of the [TLockGuard] constructor, or [Reset()]
    out of the [TLockSuspend] constructor, the exception leaves the scope,
    the body does not run, and that call is the only one made: no
    [UnLock()], no [Restore()]. *)
Theorem failed_constructor_skips_destructor m s e μ
    (body : list (stmt W)) (c : code W) :
  (Lock m (mem s) = Throw e μ →
   lock_scope (Some m) body s = Throw e (Traced μ (calls s ++ [on_mutex m MLock]))) ∧
  (Reset m (mem s) = Throw e μ →
   suspend_scope (Some m) c s = Throw e (Traced μ (calls s ++ [on_mutex m MReset]))).
Proof.
  split; intros H.
  - unfold lock_scope, scope. by rewrite ctor_held, H.
  - unfold suspend_scope, scope. by rewrite suspend_ctor_held, H.
Qed.
End macro_paths.

Section scope_composition.
Context {W St : Type} {B : TVirtualMutex W St}.
Implicit Types (s : traced W St) (m : loc).
Local Open Scope prog_scope.

Lemma final_restate {A Σ Σ'} (f : Σ → Σ') (r : outcome A Σ) :
  final (restate f r) = f (final r).
Proof. by destruct r. Qed.

Lemma exits_restate {A Σ Σ'} (f : Σ → Σ') (r : outcome A Σ) :
  exits (restate f r) ↔ exits r.
Proof. by destruct r. Qed.

Lemma leave_exits_inv {G Σ A} (dtor : M (frame G Σ) unit) (r : outcome A (frame G Σ)) :
  exits (leave dtor r) → exits r ∧ ∃ f', dtor (final r) = Return tt f'.
Proof.
  destruct r as [a f|e f|h f]; cbn; [| |done];
    destruct (dtor f) as [[] f'| |] eqn:E; cbn; try done; eauto.
Qed.

(** X4.  [R__LOCKGUARD_IMT(mutex)], compiled in and with the flag on,
    does not protect what follows it: its guard is the whole body of the
    [if], so the macro calls [Lock()] and then [UnLock()] on the mutex and
    returns with the caller holding it no deeper than before. *)
Theorem R__LOCKGUARD_IMT_releases_at_once {R : Reentrant B}
    (enabled : memory W → bool) cfg (mutex : memory W → option loc)
    s m rc μ1 rc' μ2 :
  R__USE_IMT cfg = true → thread_support cfg = true →
  enabled (mem s) = true → mutex (mem s) = Some m →
  Lock m (mem s) = Return rc μ1 →
  UnLock m μ1 = Return rc' μ2 →
  R__LOCKGUARD_IMT enabled cfg mutex s =
    Return tt (Traced μ2 (calls s ++ [on_mutex m MLock; on_mutex m MUnLock])) ∧
  held m μ2 = held m (mem s).
Proof.
  intros Himt Hthr Hon Hm HL HU. split.
  - unfold R__LOCKGUARD_IMT, scope. rewrite Himt, Hthr, Hon, Hm, ctor_held, HL.
    prog. cbn. rewrite HU. cbn. by rewrite <- app_assoc.
  - apply Lock_held in HL. apply UnLock_held in HU. lia.
Qed.

(** One statement of a scope on [m] keeps [guard_depth]. *)
Lemma exec_guard_depth {R : Reentrant B} m d (i : stmt W)
    (f : frame TLockGuard.t (traced W St)) :
  keeps_depth m i →
  (∀ μ e μ', UnLock m μ ≠ Throw e μ') →
  guard_depth m d f →
  exits (exec i f) →
  guard_depth m d (final (exec i f)).
Proof.
  intros Hi Hnothrow Hf Hx. destruct f as [[p] s]. destruct i as [|c].
  - destruct p as [m'|]; unfold guard_depth in Hf; cbn in Hf.
    + destruct Hf as [-> Hd]. revert Hx. prog.
      destruct (UnLock m (mem s)) as [rc μ'|e μ'|h μ'] eqn:HU; cbn; [|by destruct (Hnothrow _ _ _ HU)|done].
      intros _. unfold guard_depth; cbn. apply UnLock_held in HU. lia.
    + done.
  - cbn [exec keeps_depth] in *. revert Hx. prog.
    specialize (Hi (mem s)).
    destruct (c (mem s)) as [[] μ'|e μ'|h μ']; cbn in *; [| |done];
      intros _; unfold guard_depth in *; cbn in *;
      destruct p as [m'|]; [split; [tauto|lia]|lia|split; [tauto|lia]|lia].
Qed.

Lemma run_guard_depth {R : Reentrant B} m d (body : list (stmt W)) :
  Forall (keeps_depth m) body →
  (∀ μ e μ', UnLock m μ ≠ Throw e μ') →
  ∀ f, guard_depth m d f →
       exits (run body f) →
       guard_depth m d (final (run body f)).
Proof.
  intros Hbody Hnothrow. induction Hbody as [|i body Hi _ IH]; intros f Hf Hx.
  - done.
  - cbn [run] in *. unfold bind at 1 in Hx. unfold bind at 1.
    pose proof (exec_guard_depth m d i f Hi Hnothrow Hf) as Hstep.
    destruct (exec i f) as [[] f1|e f1|h f1]; cbn in Hstep.
    + by apply IH; [apply Hstep|].
    + by apply Hstep.
    + done.
Qed.

(** X7.  A [TLockGuard] scope is balanced: whatever mix of
    [guard.UnLock()] calls and depth-keeping code its body is, and whether
    it is left by a return or by an exception, the caller holds the mutex
    afterwards exactly as deep as before the guard was constructed
    (for a backend whose [UnLock()] reports by status, not by throwing). *)
Theorem lock_scope_keeps_depth {R : Reentrant B} m (body : list (stmt W)) s g s1 :
  TLockGuard.ctor (Some m) s = Return g s1 →
  Forall (keeps_depth m) body →
  (∀ μ e μ', UnLock m μ ≠ Throw e μ') →
  exits (lock_scope (Some m) body s) →
  held m (mem (final (lock_scope (Some m) body s))) = held m (mem s).
Proof.
  intros Hc Hbody Hnothrow Hx. revert Hx.
  unfold lock_scope, scope. rewrite Hc. rewrite ctor_held in Hc.
  destruct (Lock m (mem s)) as [rc μ1| |] eqn:HL; [|done..].
  injection Hc as <- <-.
  intros [Hrun [f' Hd]]%leave_exits_inv.
  rewrite leave_exits by done.
  pose proof (run_guard_depth m (held m (mem s)) body Hbody Hnothrow
                (Frame (TLockGuard.Build (Some m))
                       (Traced μ1 (calls s ++ [on_mutex m MLock])))) as Hinv.
  unfold guard_depth at 1 in Hinv; cbn [this env mem TLockGuard.fMutex] in Hinv.
  specialize (Hinv (conj eq_refl (Lock_held _ _ _ _ HL)) Hrun).
  destruct (final (run body _)) as [[p] s2].
  unfold guard_depth in Hinv; cbn in Hinv.
  destruct p as [m'|].
  - destruct Hinv as [-> Hdepth]. revert Hd. prog.
    destruct (UnLock m (mem s2)) as [rc' μ3| |] eqn:HU; [|done..].
    intros _. cbn. apply UnLock_held in HU. lia.
  - by rewrite dtor_null.
Qed.

(** X8.  Nested guards release in the reverse order of acquisition, also
    when the inner body throws: the calls of
    [{ TLockGuard a(m1); { TLockGuard b(m2); body } }] are [Lock] on [m1],
    [Lock] on [m2], [UnLock] on [m2], [UnLock] on [m1]. *)
Theorem nested_locks_release_in_reverse m1 m2 (body : list (stmt W)) s g1 s1 g2 s2 :
  TLockGuard.ctor (Some m1) s = Return g1 s1 →
  TLockGuard.ctor (Some m2) s1 = Return g2 s2 →
  exits (lock_scope (Some m2) body s1) →
  calls (final (nested_locks (Some m1) (Some m2) body s)) =
    calls s ++ [on_mutex m1 MLock; on_mutex m2 MLock;
                on_mutex m2 MUnLock; on_mutex m1 MUnLock].
Proof.
  intros H1 H2 Hx.
  assert (exits (run body (Frame g2 s2))) as Hrun.
  { revert Hx. unfold lock_scope, scope. rewrite H2.
    by intros [? _]%leave_exits_inv. }
  pose proof (lock_scope_calls m2 body s1 g2 s2 H2 Hrun) as Hinner.
  unfold nested_locks, scope. rewrite H1.
  unfold in_env. cbn [this env].
  rewrite leave_exits by (by apply exits_restate).
  rewrite final_restate.
  rewrite ctor_held in H1.
  destruct (Lock m1 (mem s)) as [rc μ| |]; [|done..].
  injection H1 as <- <-.
  rewrite dtor_held_calls, Hinner. cbn [calls].
  by rewrite <- !app_assoc.
Qed.

(** X9.  A [TLockSuspend] inside a [TLockGuard] on the same mutex: the
    calls are [Lock], [Reset], [Restore] of the snapshot [Reset] returned,
    [UnLock]; the inner body starts with the caller holding the mutex at
    depth 0 although the outer guard has locked it; and once control has
    left both scopes, by a return or by an exception of the body, the
    caller holds the mutex as deep as before. *)
Theorem suspend_inside_lock {R : Reentrant B} m (body : code W) s g1 s1 g2 s2 :
  TLockGuard.ctor (Some m) s = Return g1 s1 →
  TLockSuspend.ctor (Some m) s1 = Return g2 s2 →
  exits (lock_then_suspend (Some m) (Some m) body s) →
  held m (mem s1) = S (held m (mem s)) ∧
  held m (mem s2) = 0 ∧
  calls (final (lock_then_suspend (Some m) (Some m) body s)) =
    calls s ++ [on_mutex m MLock; on_mutex m MReset;
                on_mutex m (MRestore (TLockSuspend.fState g2));
                on_mutex m MUnLock] ∧
  held m (mem (final (lock_then_suspend (Some m) (Some m) body s))) =
    held m (mem s).
Proof.
  intros H1 H2.
  unfold lock_then_suspend, scope. rewrite H1. rewrite ctor_held in H1.
  destruct (Lock m (mem s)) as [rc μ1| |] eqn:HL; [|done..].
  injection H1 as <- <-.
  intros [Hin [f' Hd]]%leave_exits_inv.
  rewrite leave_exits by done.
  unfold in_env in *. cbn [this env] in *.
  apply exits_restate in Hin. rewrite final_restate in *.
  revert Hin Hd. unfold suspend_scope, scope. rewrite H2.
  rewrite suspend_ctor_held in H2. cbn [mem calls] in H2.
  destruct (Reset m μ1) as [st μ2| |] eqn:HR; [|done..].
  injection H2 as <- <-.
  intros [Hbody [f2 Hd2]]%leave_exits_inv.
  rewrite leave_exits by done.
  destruct (run_code_frame (St := St) body
              (Frame (TLockSuspend.Build (Some m) st)
                 (Traced μ2 ((calls s ++ [on_mutex m MLock]) ++ [on_mutex m MReset]))))
    as [Ethis Ecalls].
  destruct (final (run_code body _)) as [g3 s3]. cbn in Ethis, Ecalls. subst g3.
  revert Hd2. rewrite suspend_dtor_held.
  destruct (Restore m st (mem s3)) as [[] μ4|e μ4|[] μ4] eqn:HS; [|done..].
  intros _. cbn [final env this].
  prog. cbn [mem calls].
  destruct (UnLock m μ4) as [rc4 μ5| |] eqn:HU; [|done..].
  intros _. cbn.
  destruct (Reset_held _ _ _ _ HR) as (H0 & x & -> & Hcap).
  pose proof (Lock_held _ _ _ _ HL). pose proof (Restore_held _ _ _ _ HS).
  pose proof (UnLock_held _ _ _ _ HU).
  repeat split; [done..| |lia].
  rewrite Ecalls. by rewrite <- !app_assoc.
Qed.
End scope_composition.

(** The recursive mutex reports by status or waits; it never throws. *)
Lemma member_never_throws {A} (f : RecursiveMutex.hold → RecursiveMutex.step A)
    (m : loc) (μ : memory (list RecursiveMutex.mutex)) e μ' :
  RecursiveMutex.member f m μ ≠ Throw e μ'.
Proof.
  unfold RecursiveMutex.member.
  destruct (objects μ !! m) as [o|]; [|done]. by destruct (f _).
Qed.

Lemma macros_compiled_out_witness :
  R__LOCKGUARD2 (B := RecursiveMutex.backend 1) (Some 0)
    (Build_config false true) 5 Fixture.one_mutex = Return None Fixture.one_mutex ∧
  R__LOCKGUARD_IMT (B := RecursiveMutex.backend 1) (λ _, true)
    (Build_config true false) (load 5) Sample.mutex_set = Return tt Sample.mutex_set.
Proof.
  destruct (macros_compiled_out (B := RecursiveMutex.backend 1) (Some 0) (λ _, true)
              (Build_config false true) (load 5) 5 Fixture.one_mutex) as [H _].
  destruct (macros_compiled_out (B := RecursiveMutex.backend 1) (Some 0) (λ _, true)
              (Build_config true false) (load 5) 5 Sample.mutex_set) as [_ H'].
  split; [exact (proj1 (proj2 (H eq_refl)))|exact (proj1 (H' eq_refl))].
Defined.

Lemma R__LOCKGUARD2_without_creation_witness :
  R__LOCKGUARD2 (B := RecursiveMutex.backend 1) None
    (Build_config true false) 5 Fixture.one_mutex =
  Return (Some (TLockGuard.Build None)) Fixture.one_mutex.
Proof.
  exact (proj2 (R__LOCKGUARD2_without_creation (B := RecursiveMutex.backend 1)
                  None (Build_config true false) 5 Fixture.one_mutex
                  (or_introl eq_refl)) eq_refl eq_refl).
Defined.

Lemma R__LOCKGUARD2_factory_throws_witness :
  R__LOCKGUARD2 (B := Faulty.factory_throws 8) (Some 0)
    (Build_config true false) 5 Stub.empty =
  Throw 8 (Traced (mem Stub.empty) [on_mutex 0 MLock; on_mutex 0 (MFactory true)]).
Proof.
  exact (proj1 (R__LOCKGUARD2_factory_throws (B := Faulty.factory_throws 8)
                  0 (Build_config true false) 5 Stub.empty _ _ 8 _
                  eq_refl eq_refl eq_refl eq_refl eq_refl)).
Defined.

Lemma R__LOCKGUARD_IMT_releases_at_once_witness :
  R__LOCKGUARD_IMT (B := RecursiveMutex.backend 1) (λ _, true)
    (Build_config true true) (load 5) Sample.mutex_set =
  Return tt (Traced (mem Sample.mutex_set) [on_mutex 0 MLock; on_mutex 0 MUnLock]).
Proof.
  exact (proj1 (R__LOCKGUARD_IMT_releases_at_once (B := RecursiveMutex.backend 1)
                  (λ _, true) (Build_config true true) (load 5)
                  Sample.mutex_set 0 _ _ _ _
                  eq_refl eq_refl eq_refl eq_refl eq_refl eq_refl)).
Defined.

Lemma R__LOCKGUARD_IMT2_always_guards_witness :
  calls (final (R__LOCKGUARD_IMT2 (B := RecursiveMutex.backend 1) (Some 0) (λ _, false)
                  (Build_config true true) 5 Sample.mutex_set)) =
    [on_mutex 0 MLock].
Proof.
  exact (f_equal (λ r, calls (final r))
           (proj2 (R__LOCKGUARD_IMT2_always_guards (B := RecursiveMutex.backend 1)
                     (Some 0) (λ _, false) (Build_config true true) 5
                     Sample.mutex_set eq_refl eq_refl) 0 eq_refl eq_refl)).
Defined.

Lemma failed_constructor_skips_destructor_witness :
  lock_scope (B := Faulty.acquire_throws 6) (Some 0) [guard_UnLock] Stub.empty =
    Throw 6 (Traced (mem Stub.empty) [on_mutex 0 MLock]) ∧
  suspend_scope (B := Faulty.acquire_throws 6) (Some 0) (Fixture.fail 2) Stub.empty =
    Throw 6 (Traced (mem Stub.empty) [on_mutex 0 MReset]).
Proof.
  destruct (failed_constructor_skips_destructor (B := Faulty.acquire_throws 6)
              0 Stub.empty 6 (mem Stub.empty) [guard_UnLock] (Fixture.fail 2))
    as [H1 H2].
  split; [exact (H1 eq_refl)|exact (H2 eq_refl)].
Defined.

Lemma lock_scope_keeps_depth_witness :
  held (B := RecursiveMutex.backend 1) 0
    (mem (final (lock_scope (B := RecursiveMutex.backend 1) (Some 0)
                   [guard_UnLock; other (Fixture.fail 3)] Fixture.held_twice))) =
  held (B := RecursiveMutex.backend 1) 0 (mem Fixture.held_twice).
Proof.
  refine (lock_scope_keeps_depth (B := RecursiveMutex.backend 1) 0
            [guard_UnLock; other (Fixture.fail 3)] Fixture.held_twice _ _
            eq_refl _ _ I).
  - repeat constructor.
  - intros μ e μ'. apply member_never_throws.
Defined.

Lemma nested_locks_release_in_reverse_witness :
  calls (final (nested_locks (B := RecursiveMutex.backend 1) (Some 0) (Some 1)
                  [other (Fixture.fail 3)] Sample.two_mutexes)) =
    [on_mutex 0 MLock; on_mutex 1 MLock; on_mutex 1 MUnLock; on_mutex 0 MUnLock].
Proof.
  exact (nested_locks_release_in_reverse (B := RecursiveMutex.backend 1) 0 1
           [other (Fixture.fail 3)] Sample.two_mutexes _ _ _ _ eq_refl eq_refl I).
Defined.

Lemma suspend_inside_lock_witness :
  held (B := RecursiveMutex.backend 1) 0
    (mem (final (lock_then_suspend (B := RecursiveMutex.backend 1) (Some 0) (Some 0)
                   (Fixture.fail 3) Fixture.held_twice))) =
  held (B := RecursiveMutex.backend 1) 0 (mem Fixture.held_twice).
Proof.
  exact (proj2 (proj2 (proj2
    (suspend_inside_lock (B := RecursiveMutex.backend 1) 0 (Fixture.fail 3)
       Fixture.held_twice _ _ _ _ eq_refl eq_refl I)))).
Defined.
